(** * trickkiste.base_tui_app: the log pane of [TuiBaseApp]

    A shallow embedding of [src/trickkiste/base_tui_app.py]: the handler
    [RichLogHandler] that redirects [logging] records to a textual [RichLog]
    widget, the widget [LockingRichLog] that couples auto-scroll to the
    scroll position, and the application shell [TuiBaseApp] ([on_mount],
    [execute], [set_log_levels]).

    The module calls into Python's [logging], [rich.markup] and [textual].
    The parts of those libraries the code relies on are modelled in the
    modules [Py], [Rich], [Logging] and [Textual] below; strings are byte
    strings holding UTF-8 text. *)

From Stdlib Require Import String Ascii List ZArith Bool Lia DecimalString.
Import ListNotations.
Local Open Scope list_scope.
Local Open Scope string_scope.

(* ------------------------------------------------------------------ *)
(** ** Exceptions *)

(** The exceptions the modelled code can raise.  [NotModelled] marks a use
    of a Python feature that this development does not describe (a
    conversion such as [%f], a precision): what the program does there is
    left open. *)
Inductive Exn : Type :=
| TypeError (why : string)
| KeyError (key : string)
| ValueError (why : string)
| MarkupError (why : string)
| NotModelled (what : string).

(** The result of a call that either returns or raises. *)
Inductive Outcome (A : Type) : Type :=
| Ok (a : A)
| Raise (e : Exn).
Arguments Ok {A} a.
Arguments Raise {A} e.

Definition bind {A B : Type} (m : Outcome A) (k : A -> Outcome B) : Outcome B :=
  match m with
  | Ok a => k a
  | Raise e => Raise e
  end.

Notation "x <- m ;; k" := (bind m (fun x => k))
  (at level 61, m at next level, right associativity).

Definition returned {A : Type} (m : Outcome A) : bool :=
  match m with Ok _ => true | Raise _ => false end.


(* ------------------------------------------------------------------ *)
(** ** Python values, truthiness and [%]-formatting *)

Module Py.

(** The values a log call passes around.  [PyObj cls text] is an instance
    of a class other than [str], [int], [bool] and [NoneType] (an
    exception, a path, a float, ...) whose [str()] is [text]. *)
Inductive PyVal : Type :=
| PyStr (s : string)
| PyInt (z : Z)
| PyBool (b : bool)
| PyNone
| PyObj (cls : string) (text : string).

(** [isinstance(v, str)] *)
Definition isinstance_str (v : PyVal) : bool :=
  match v with PyStr _ => true | _ => false end.

Definition Z_to_string (z : Z) : string :=
  NilZero.string_of_int (Z.to_int z).

(** [str(v)] *)
Definition str (v : PyVal) : string :=
  match v with
  | PyStr s => s
  | PyInt z => Z_to_string z
  | PyBool true => "True"
  | PyBool false => "False"
  | PyNone => "None"
  | PyObj _ text => text
  end.

(** The value of [record.args]: [None], a tuple, or the single mapping
    argument that [LogRecord.__init__] unpacks. *)
Inductive PyArgs : Type :=
| ArgsNone
| ArgsTuple (items : list PyVal)
| ArgsDict (entries : list (string * PyVal)).

(** [bool(args)] *)
Definition truthy (a : PyArgs) : bool :=
  match a with
  | ArgsNone => false
  | ArgsTuple [] => false
  | ArgsDict [] => false
  | _ => true
  end.

(** [iter(args)]: [None] is not iterable, a dict yields its keys. *)
Definition iter (a : PyArgs) : Outcome (list PyVal) :=
  match a with
  | ArgsNone => Raise (TypeError "'NoneType' object is not iterable")
  | ArgsTuple items => Ok items
  | ArgsDict entries => Ok (map (fun kv => PyStr (fst kv)) entries)
  end.

(** [len(s)] of a [str] held as UTF-8: continuation bytes do not count. *)
Fixpoint len (s : string) : nat :=
  match s with
  | EmptyString => 0
  | String c r =>
      let n := nat_of_ascii c in
      if (128 <=? n)%nat && (n <? 192)%nat then len r else S (len r)
  end.

Fixpoint spaces (n : nat) : string :=
  match n with
  | O => ""
  | S k => String " " (spaces k)
  end.

(** Padding of a converted value to a minimum field width. *)
Definition pad (ljust : bool) (width : nat) (s : string) : string :=
  let fill := spaces (width - len s) in
  if ljust then s ++ fill else fill ++ s.

(** *** Format strings *)

(** A parsed format string: literal characters and conversion
    specifications [%[(key)][-][width]conv]. *)
Inductive Segment : Type :=
| Lit (c : ascii)
| Conv (key : option string) (ljust : bool) (width : nat) (conv : ascii).

Inductive PState : Type :=
| InText
| AfterPercent
| InKey (key : string)
| InSpec (key : option string) (ljust : bool) (width : option nat).

Inductive SpecAction : Type :=
| Emit (seg : Segment)
| Goto (st : PState)
| Fail (e : Exn).

Definition digit_of (c : ascii) : option nat :=
  let n := nat_of_ascii c in
  if (48 <=? n)%nat && (n <=? 57)%nat then Some (n - 48)%nat else None.

(** One character inside a conversion specification, after the key. *)
Definition spec_step (key : option string) (ljust : bool) (width : option nat)
           (c : ascii) : SpecAction :=
  match digit_of c with
  | Some d =>
      match width with
      | None =>
          if (d =? 0)%nat then Fail (NotModelled "flag 0")
          else Goto (InSpec key ljust (Some d))
      | Some w => Goto (InSpec key ljust (Some (10 * w + d)%nat))
      end
  | None =>
      if Ascii.eqb c "-" then
        match width with
        | None => Goto (InSpec key true None)
        | Some _ => Fail (ValueError "unsupported format character")
        end
      else if Ascii.eqb c "s" || Ascii.eqb c "d" || Ascii.eqb c "i" then
        Emit (Conv key ljust (match width with Some w => w | None => 0%nat end) c)
      else Fail (NotModelled "conversion")
  end.

Fixpoint parse_from (st : PState) (fmt : string) : Outcome (list Segment) :=
  match fmt with
  | EmptyString =>
      match st with
      | InText => Ok []
      | _ => Raise (ValueError "incomplete format")
      end
  | String c rest =>
      let spec key ljust width :=
        match spec_step key ljust width c with
        | Emit seg => segs <- parse_from InText rest ;; Ok (seg :: segs)
        | Goto st' => parse_from st' rest
        | Fail e => Raise e
        end in
      match st with
      | InText =>
          if Ascii.eqb c "%" then parse_from AfterPercent rest
          else segs <- parse_from InText rest ;; Ok (Lit c :: segs)
      | AfterPercent =>
          if Ascii.eqb c "%" then
            segs <- parse_from InText rest ;; Ok (Lit c :: segs)
          else if Ascii.eqb c "(" then parse_from (InKey "") rest
          else spec None false None
      | InKey key =>
          if Ascii.eqb c ")" then parse_from (InSpec (Some key) false None) rest
          else if Ascii.eqb c "(" then Raise (NotModelled "nested key")
          else parse_from (InKey (key ++ String c "")) rest
      | InSpec key ljust width => spec key ljust width
      end
  end.

Definition parse (fmt : string) : Outcome (list Segment) := parse_from InText fmt.

(** The mapping keys a format string refers to, in order. *)
Fixpoint keys_of (segs : list Segment) : list string :=
  match segs with
  | [] => []
  | Conv (Some k) _ _ _ :: rest => k :: keys_of rest
  | _ :: rest => keys_of rest
  end.

(** One conversion applied to one value.  For [%d] and [%i] a string and
    [None] are refused; what another object gives depends on its class (a
    float is truncated) and is not described. *)
Definition convert (conv : ascii) (v : PyVal) : Outcome string :=
  if Ascii.eqb conv "s" then Ok (str v)
  else
    match v with
    | PyInt z => Ok (Z_to_string z)
    | PyBool true => Ok "1"
    | PyBool false => Ok "0"
    | PyStr _ | PyNone => Raise (TypeError "%d format: a real number is required")
    | PyObj _ _ => Raise (NotModelled "number conversion of an object")
    end.

(** [fmt % tuple] *)
Fixpoint format_tuple (segs : list Segment) (items : list PyVal) : Outcome string :=
  match segs with
  | [] =>
      match items with
      | [] => Ok ""
      | _ => Raise (TypeError "not all arguments converted during string formatting")
      end
  | Lit c :: rest => s <- format_tuple rest items ;; Ok (String c s)
  | Conv (Some _) _ _ _ :: _ => Raise (TypeError "format requires a mapping")
  | Conv None ljust width conv :: rest =>
      match items with
      | [] => Raise (TypeError "not enough arguments for format string")
      | v :: items' =>
          t <- convert conv v ;;
          s <- format_tuple rest items' ;;
          Ok (pad ljust width t ++ s)
      end
  end.

(** [fmt % mapping] *)
Fixpoint format_mapping (segs : list Segment) (lookup : string -> option PyVal)
  : Outcome string :=
  match segs with
  | [] => Ok ""
  | Lit c :: rest => s <- format_mapping rest lookup ;; Ok (String c s)
  | Conv None _ _ _ :: _ => Raise (NotModelled "mapping as a single argument")
  | Conv (Some k) ljust width conv :: rest =>
      match lookup k with
      | None => Raise (KeyError k)
      | Some v =>
          t <- convert conv v ;;
          s <- format_mapping rest lookup ;;
          Ok (pad ljust width t ++ s)
      end
  end.

Fixpoint assoc (entries : list (string * PyVal)) (k : string) : option PyVal :=
  match entries with
  | [] => None
  | (k', v) :: rest => if String.eqb k' k then Some v else assoc rest k
  end.

(** [fmt % args] for the (truthy) [args] of a record.  The format is read
    as a whole before an argument is converted; where the format is
    malformed after a conversion that fails too, Python reports the
    failure that comes first in the string, so its exception can be of
    another class than the one here. *)
Definition mod_args (fmt : string) (a : PyArgs) : Outcome string :=
  segs <- parse fmt ;;
  match a with
  | ArgsNone => Raise (NotModelled "None as operand")
  | ArgsTuple items => format_tuple segs items
  | ArgsDict entries => format_mapping segs (assoc entries)
  end.

End Py.

(* ------------------------------------------------------------------ *)
(** ** rich.markup *)

Module Rich.

(** The first character of a tag: the class [[a-z#/@]]. *)
Definition is_tag_start (c : ascii) : bool :=
  let n := nat_of_ascii c in
  ((97 <=? n)%nat && (n <=? 122)%nat)
  || Ascii.eqb c "#" || Ascii.eqb c "/" || Ascii.eqb c "@".

(** [[^[]*?]] followed by a closing bracket: the text up to the first
    closing bracket, provided no opening bracket comes before it. *)
Fixpoint tag_body (s : string) : option string :=
  match s with
  | EmptyString => None
  | String c r =>
      if Ascii.eqb c "]" then Some ""
      else if Ascii.eqb c "[" then None
      else option_map (String c) (tag_body r)
  end.

(** [\[[a-z#/@][^[]*?]] at the start of [s]: the text between the
    brackets. *)
Definition tag_at (s : string) : option string :=
  match s with
  | String b t =>
      if Ascii.eqb b "[" then
        match t with
        | String c r =>
            if is_tag_start c then option_map (String c) (tag_body r) else None
        | EmptyString => None
        end
      else None
  | EmptyString => None
  end.

(** The greedy run of backslashes [s] starts with, and what follows. *)
Fixpoint backslashes (s : string) : nat * string :=
  match s with
  | String c r =>
      if Ascii.eqb c "\" then let (k, t) := backslashes r in (S k, t)
      else (O, s)
  | EmptyString => (O, s)
  end.

(** rich's tag pattern at the start of [s]: any number of backslashes,
    then a tag.  The result is the number of backslashes and the text
    between the brackets.  rich uses this one pattern both to escape and
    to find the tags of a markup string. *)
Definition match_at (s : string) : option (nat * string) :=
  let (k, t) := backslashes s in
  option_map (fun tag => (k, tag)) (tag_at t).

Inductive Token : Type :=
| Chr (c : ascii)
| Tag (escapes : nat) (text : string).

(** The non-overlapping matches of the pattern, leftmost first, with the
    characters between them; [skip] counts the characters still covered by
    the last match. *)
Fixpoint scan (skip : nat) (s : string) : list Token :=
  match s with
  | EmptyString => []
  | String c r =>
      match skip with
      | S k => scan k r
      | O =>
          match match_at s with
          | Some (k, tag) => Tag k tag :: scan (k + String.length tag + 1) r
          | None => Chr c :: scan 0 r
          end
      end
  end.

Fixpoint repeat_backslash (n : nat) : string :=
  match n with
  | O => ""
  | S k => String "\" (repeat_backslash k)
  end.

(** A match is replaced by its backslashes twice, one more backslash and
    the tag. *)
Fixpoint escape_tokens (ts : list Token) : string :=
  match ts with
  | [] => ""
  | Chr c :: rest => String c (escape_tokens rest)
  | Tag k tag :: rest =>
      repeat_backslash (k + k + 1) ++ "[" ++ tag ++ "]" ++ escape_tokens rest
  end.

(** [s.endswith(suffix)] *)
Fixpoint endswith (s suffix : string) : bool :=
  String.eqb s suffix
  || match s with
     | EmptyString => false
     | String _ r => endswith r suffix
     end.

(** [rich.markup.escape]: every tag gets an odd number of backslashes in
    front, and a single trailing backslash is doubled. *)
Definition escape (markup : string) : string :=
  let markup := escape_tokens (scan 0 markup) in
  if endswith markup "\" && negb (endswith markup "\\")
  then markup ++ "\"
  else markup.

(** The tags [Text.from_markup] acts on: the matches with an even number
    of backslashes in front (an odd number escapes the tag). *)
Fixpoint live (ts : list Token) : list string :=
  match ts with
  | [] => []
  | Tag k tag :: rest =>
      if Nat.even k then tag :: live rest else live rest
  | Chr _ :: rest => live rest
  end.

Definition live_tags (markup : string) : list string := live (scan 0 markup).

(** *** The characters a markup string shows *)

(** [plain_text.replace("\\[", "[")] *)
Fixpoint unescape_brackets (s : string) : string :=
  match s with
  | String c r =>
      match r with
      | String d r' =>
          if Ascii.eqb c "\" && Ascii.eqb d "["
          then String "[" (unescape_brackets r')
          else String c (unescape_brackets r)
      | EmptyString => s
      end
  | EmptyString => s
  end.

(** What [rich.markup._parse] yields: stretches of text and tags. *)
Inductive Piece : Type :=
| Plain (text : string)
| Style (tag : string).

Definition flush (pending : string) : list Piece :=
  match pending with
  | EmptyString => []
  | _ => [Plain pending]
  end.

(** The text between two matches is one stretch ([pending] collects it).
    A match with [k] backslashes gives [k / 2] literal backslashes and
    then, for an even [k], the tag, and for an odd [k] the tag with its
    brackets as text. *)
Fixpoint pieces (pending : string) (ts : list Token) : list Piece :=
  match ts with
  | [] => flush pending
  | Chr c :: rest => pieces (pending ++ String c "") rest
  | Tag k tag :: rest =>
      (flush pending
       ++ flush (repeat_backslash (Nat.div2 k))
       ++ (if Nat.even k then Style tag else Plain ("[" ++ tag ++ "]"))
          :: pieces "" rest)%list
  end.

Fixpoint colons (s : string) : nat :=
  match s with
  | EmptyString => 0
  | String c r => if Ascii.eqb c ":" then S (colons r) else colons r
  end.

(** rich's [_emoji_replace]: an emoji code is a name between two colons, so
    a text with fewer than two colons is returned as it is; [table] is
    what rich's table of emoji names makes of a text that may hold
    codes. *)
Definition emoji_replace (table : string -> string) (s : string) : string :=
  if (2 <=? colons s)%nat then table s else s.

Fixpoint has_bracket (s : string) : bool :=
  match s with
  | EmptyString => false
  | String c r => Ascii.eqb c "[" || has_bracket r
  end.

(** The plain text of [rich.markup.render(markup)]: the stretches of
    text, each with its escaped brackets replaced and its emoji codes
    substituted; the tags become styles and show no character. *)
Definition render_plain (table : string -> string) (markup : string) : string :=
  if has_bracket markup then
    String.concat ""
      (map (fun p => match p with
                     | Plain text => emoji_replace table (unescape_brackets text)
                     | Style _ => ""
                     end)
           (pieces "" (scan 0 markup)))
  else emoji_replace table markup.

End Rich.

(* ------------------------------------------------------------------ *)
(** ** logging: records, formatters, filters, handlers *)

Module Logging.
Import Py.

Definition NOTSET : Z := 0.
Definition DEBUG : Z := 10.
Definition INFO : Z := 20.
Definition WARNING : Z := 30.
Definition ERROR : Z := 40.
Definition CRITICAL : Z := 50.

(** [record.exc_info]: the exception that a call such as [log.exception]
    attaches to a record; [traceback] is the text that
    [Formatter.formatException] renders for it. *)
Record ExcInfo : Type := mkExcInfo {
  exc_class : string;
  traceback : string
}.

(** A [logging.LogRecord], with the attributes this program reads or
    writes.  [message], [asctime] and [exc_text] are set by the
    formatter, [callstack] and [posixTID] by filters. *)
Record LogRecord : Type := mkLogRecord {
  name : string;
  levelno : Z;
  msg : PyVal;
  args : PyArgs;
  created : Z;
  funcName : string;
  message : option string;
  asctime : option string;
  callstack : option string;
  posixTID : option Z;
  exc_info : option ExcInfo;
  exc_text : option string;
  stack_info : option string
}.

Definition set_name (r : LogRecord) (v : string) : LogRecord :=
  mkLogRecord v (levelno r) (msg r) (args r) (created r) (funcName r)
              (message r) (asctime r) (callstack r) (posixTID r)
              (exc_info r) (exc_text r) (stack_info r).
Definition set_msg (r : LogRecord) (v : PyVal) : LogRecord :=
  mkLogRecord (name r) (levelno r) v (args r) (created r) (funcName r)
              (message r) (asctime r) (callstack r) (posixTID r)
              (exc_info r) (exc_text r) (stack_info r).
Definition set_args (r : LogRecord) (v : PyArgs) : LogRecord :=
  mkLogRecord (name r) (levelno r) (msg r) v (created r) (funcName r)
              (message r) (asctime r) (callstack r) (posixTID r)
              (exc_info r) (exc_text r) (stack_info r).
Definition set_message (r : LogRecord) (v : string) : LogRecord :=
  mkLogRecord (name r) (levelno r) (msg r) (args r) (created r) (funcName r)
              (Some v) (asctime r) (callstack r) (posixTID r)
              (exc_info r) (exc_text r) (stack_info r).
Definition set_asctime (r : LogRecord) (v : string) : LogRecord :=
  mkLogRecord (name r) (levelno r) (msg r) (args r) (created r) (funcName r)
              (message r) (Some v) (callstack r) (posixTID r)
              (exc_info r) (exc_text r) (stack_info r).
Definition set_callstack (r : LogRecord) (v : string) : LogRecord :=
  mkLogRecord (name r) (levelno r) (msg r) (args r) (created r) (funcName r)
              (message r) (asctime r) (Some v) (posixTID r)
              (exc_info r) (exc_text r) (stack_info r).
Definition set_posixTID (r : LogRecord) (v : Z) : LogRecord :=
  mkLogRecord (name r) (levelno r) (msg r) (args r) (created r) (funcName r)
              (message r) (asctime r) (callstack r) (Some v)
              (exc_info r) (exc_text r) (stack_info r).
Definition set_exc_text (r : LogRecord) (v : string) : LogRecord :=
  mkLogRecord (name r) (levelno r) (msg r) (args r) (created r) (funcName r)
              (message r) (asctime r) (callstack r) (posixTID r)
              (exc_info r) (Some v) (stack_info r).

(** [logging.getLevelName(level)] for a number: the name of the level, or
    [Level n] when it has none. *)
Definition getLevelName (level : Z) : string :=
  if (level =? CRITICAL)%Z then "CRITICAL"
  else if (level =? ERROR)%Z then "ERROR"
  else if (level =? WARNING)%Z then "WARNING"
  else if (level =? INFO)%Z then "INFO"
  else if (level =? DEBUG)%Z then "DEBUG"
  else if (level =? NOTSET)%Z then "NOTSET"
  else "Level " ++ Z_to_string level.

(** [record.levelname] *)
Definition levelname (r : LogRecord) : string := getLevelName (levelno r).

(** [record.__dict__[key]] for the attributes a format string can name. *)
Definition attribute (r : LogRecord) (key : string) : option PyVal :=
  if String.eqb key "name" then Some (PyStr (name r))
  else if String.eqb key "levelno" then Some (PyInt (levelno r))
  else if String.eqb key "levelname" then Some (PyStr (levelname r))
  else if String.eqb key "msg" then Some (msg r)
  else if String.eqb key "created" then Some (PyInt (created r))
  else if String.eqb key "funcName" then Some (PyStr (funcName r))
  else if String.eqb key "message" then option_map PyStr (message r)
  else if String.eqb key "asctime" then option_map PyStr (asctime r)
  else if String.eqb key "callstack" then option_map PyStr (callstack r)
  else if String.eqb key "posixTID" then option_map PyInt (posixTID r)
  else None.

(** [LogRecord.getMessage] *)
Definition getMessage (r : LogRecord) : Outcome string :=
  let msg := str (msg r) in
  if truthy (args r) then mod_args msg (args r) else Ok msg.

(** [s.find(sub) >= 0] *)
Fixpoint contains (s sub : string) : bool :=
  String.prefix sub s
  || match s with
     | EmptyString => false
     | String _ r => contains r sub
     end.

(** A [logging.Formatter] of style [%]. *)
Record Formatter : Type := mkFormatter {
  fmt : string;
  datefmt : option string
}.

Definition usesTime (f : Formatter) : bool := contains (fmt f) "%(asctime)".

(** [Formatter.formatMessage]: a field the record lacks is reported as a
    [ValueError]. *)
Definition formatMessage (f : Formatter) (r : LogRecord) : Outcome string :=
  match (segs <- parse (fmt f) ;; format_mapping segs (attribute r)) with
  | Raise (KeyError k) => Raise (ValueError "Formatting field not found in record")
  | other => other
  end.

(** The record filters a handler can hold: the four callables of
    [logging_helper] that [on_mount] installs. *)
Inductive Filter : Type :=
| callstack_filter
| thread_id_filter
| markup_escape_filter
| logger_name_filter.

Definition Filter_eqb (a b : Filter) : bool :=
  match a, b with
  | callstack_filter, callstack_filter
  | thread_id_filter, thread_id_filter
  | markup_escape_filter, markup_escape_filter
  | logger_name_filter, logger_name_filter => true
  | _, _ => false
  end.

(** A [logging.Handler] as [rich.logging.RichHandler] extends it;
    [widget] is the DOM id of the widget a [RichLogHandler] writes to. *)
Record Handler : Type := mkHandler {
  level : Z;
  filters : list Filter;
  formatter : option Formatter;
  show_time : bool;
  show_level : bool;
  show_path : bool;
  markup : bool;
  widget : string
}.

(** [Filterer.addFilter]: appended unless already present. *)
Definition addFilter (h : Handler) (f : Filter) : Handler :=
  if existsb (Filter_eqb f) (filters h) then h
  else mkHandler (level h) (filters h ++ [f])%list (formatter h)
                 (show_time h) (show_level h) (show_path h) (markup h) (widget h).

(** [Handler.setFormatter] *)
Definition setFormatter (h : Handler) (f : Formatter) : Handler :=
  mkHandler (level h) (filters h) (Some f)
            (show_time h) (show_level h) (show_path h) (markup h) (widget h).

(** [Handler.setLevel] *)
Definition setLevel (h : Handler) (l : Z) : Handler :=
  mkHandler l (filters h) (formatter h)
            (show_time h) (show_level h) (show_path h) (markup h) (widget h).

Definition _defaultFormatter : Formatter := mkFormatter "%(message)s" None.

(** [Formatter.formatException]: the traceback of the exception. *)
Definition formatException (ei : ExcInfo) : string := traceback ei.

(** [Formatter.formatStack] *)
Definition formatStack (stack_info : string) : string := stack_info.

(** Is the attribute a string that is not empty? *)
Definition nonempty (s : option string) : bool :=
  match s with
  | Some (String _ _) => true
  | _ => false
  end.

Definition text_of (s : option string) : string :=
  match s with
  | Some text => text
  | None => ""
  end.

Definition newline : string := String (ascii_of_nat 10) "".

(** [s[-1:] != "\n"] *)
Fixpoint ends_with_newline (s : string) : bool :=
  match s with
  | EmptyString => false
  | String c EmptyString => Ascii.eqb c (ascii_of_nat 10)
  | String _ r => ends_with_newline r
  end.

(** [s] with [text] appended on a line of its own. *)
Definition on_new_line (s text : string) : string :=
  (if ends_with_newline s then s else s ++ newline) ++ text.

(** The traceback is rendered once and kept on the record:
    [if record.exc_info: if not record.exc_text: record.exc_text = ...] *)
Definition cache_exc_text (r : LogRecord) : LogRecord :=
  match exc_info r with
  | Some ei => if nonempty (exc_text r) then r else set_exc_text r (formatException ei)
  | None => r
  end.

(** The formatted message followed by the traceback and the stack text
    that the record carries. *)
Definition with_exception_text (r : LogRecord) (s : string) : string :=
  let s := if nonempty (exc_text r) then on_new_line s (text_of (exc_text r)) else s in
  if nonempty (stack_info r)
  then on_new_line s (formatStack (text_of (stack_info r)))
  else s.

Section Formatting.
(** [Formatter.formatTime]: the local time of [created], rendered with
    the date format (the clock and the time zone are the platform's). *)
Variable formatTime : option string -> Z -> string.

(** [Formatter.format]: stores [message] and [asctime] on the record,
    formats it, and appends the traceback of the exception and the stack
    text that the record carries, each on a line of its own.  The
    traceback is rendered once and kept on the record as [exc_text]. *)
Definition Formatter_format (f : Formatter) (r : LogRecord)
  : Outcome (LogRecord * string) :=
  m <- getMessage r ;;
  let r := set_message r m in
  let r := if usesTime f
           then set_asctime r (formatTime (datefmt f) (created r))
           else r in
  s <- formatMessage f r ;;
  let r := cache_exc_text r in
  Ok (r, with_exception_text r s).

(** [Handler.format] *)
Definition Handler_format (h : Handler) (r : LogRecord)
  : Outcome (LogRecord * string) :=
  match formatter h with
  | Some f => Formatter_format f r
  | None => Formatter_format _defaultFormatter r
  end.
End Formatting.

Section Handling.
Context {W : Type}.
(** What a filter does to a record: its verdict and the record as it
    leaves it. *)
Variable run_filter : Filter -> LogRecord -> bool * LogRecord.
(** The handler's [emit], acting on the state [W] it writes to. *)
Variable emit : Handler -> LogRecord -> W -> Outcome (LogRecord * W).

(** [Filterer.filter]: the filters in the order of the list, up to the
    first that rejects. *)
Fixpoint Filterer_filter (fs : list Filter) (r : LogRecord) : bool * LogRecord :=
  match fs with
  | [] => (true, r)
  | f :: rest =>
      let (keep, r') := run_filter f r in
      if keep then Filterer_filter rest r' else (false, r')
  end.

(** [Handler.handle]: emit the record unless a filter rejects it. *)
Definition Handler_handle (h : Handler) (r : LogRecord) (w : W)
  : Outcome (LogRecord * W) :=
  let (rv, r') := Filterer_filter (filters h) r in
  if rv then emit h r' w else Ok (r', w).
End Handling.

End Logging.

(* ------------------------------------------------------------------ *)
(** ** rich.text and textual widgets *)

Module Textual.
Import Logging.

(** A [rich.text.Text]: built from markup by [Text.from_markup], or
    holding its string as it is. *)
Inductive Text : Type :=
| FromMarkup (markup : string)
| PlainText (text : string).


(** What [rich.markup.render] does with the tags in force: an opening tag
    is pushed, [[/]] pops and needs an open tag.  A closing tag that names
    a style needs an open tag of that style: with no tag open it raises;
    which open tag it closes otherwise depends on rich's normal form of
    style names and is not described, and neither are tags starting with
    [@]. *)
Fixpoint balance (tags : list string) (open_tags : list string) : Outcome unit :=
  match tags with
  | [] => Ok tt
  | tag :: rest =>
      if String.eqb tag "/" then
        match open_tags with
        | [] => Raise (MarkupError "closing tag '[/]' has nothing to close")
        | _ :: below => balance rest below
        end
      else if String.prefix "/" tag then
        match open_tags with
        | [] => Raise (MarkupError "closing tag doesn't match any open tag")
        | _ :: _ => Raise (NotModelled "named closing tag")
        end
      else if String.prefix "@" tag
      then Raise (NotModelled "meta tag")
      else balance rest (tag :: open_tags)
  end.

(** [Text.from_markup] *)
Definition from_markup (s : string) : Outcome Text :=
  _ <- balance (Rich.live_tags s) [] ;; Ok (FromMarkup s).

(** The characters a text shows; [table] is rich's table of emoji
    names. *)
Definition plain_of (table : string -> string) (t : Text) : string :=
  match t with
  | FromMarkup markup => Rich.render_plain table markup
  | PlainText text => text
  end.

(** The renderable [RichHandler.render] lays out for a record: rich's log
    row, a grid with a cell for the level (when the handler shows levels)
    and a cell for the message text.  (A [RichLogHandler] has rich's time
    and path cells switched off.) *)
Record Renderable : Type := LogRow {
  row_record : LogRecord;
  level_cell : option string;
  message_renderable : Text
}.

(** The text of the cells of a row, left to right. *)
Definition cells (table : string -> string) (row : Renderable) : list string :=
  (match level_cell row with
   | Some text => [text]
   | None => []
   end ++ [plain_of table (message_renderable row)])%list.

(** A [textual.widgets.RichLog]: the lines written so far, the
    [auto_scroll] flag, and the vertical scroll position with its
    maximum. *)
Record RichLog : Type := mkRichLog {
  lines : list Renderable;
  auto_scroll : bool;
  scroll_y : Z;
  max_scroll_y : Z
}.

(** [RichLog.write]: the renderable is appended to the lines.  (Laying
    the content out and moving the view are the framework's.) *)
Definition write (w : RichLog) (content : Renderable) : RichLog :=
  mkRichLog (lines w ++ [content])%list (auto_scroll w) (scroll_y w) (max_scroll_y w).

(** [Widget.is_vertical_scroll_end]: is the vertical scroll position at
    the maximum? *)
Definition is_vertical_scroll_end (w : RichLog) : bool :=
  (scroll_y w =? max_scroll_y w)%Z.

Definition set_auto_scroll (w : RichLog) (v : bool) : RichLog :=
  mkRichLog (lines w) v (scroll_y w) (max_scroll_y w).

(** The framework moving the view or laying out new content. *)
Definition set_scroll (w : RichLog) (y max_y : Z) : RichLog :=
  mkRichLog (lines w) (auto_scroll w) y max_y.

(** The message [textual.scrollbar.ScrollTo]. *)
Record ScrollTo : Type := mkScrollTo {
  x : option Z;
  y : option Z;
  animate : bool
}.

(** [clamp(value, minimum, maximum)] *)
Definition clamp (value minimum maximum : Z) : Z :=
  Z.max minimum (Z.min maximum value).

(** [Widget._on_scroll_to], the framework's own handler of the message:
    the view moves to where the message asks, within the scrollable range
    (the widget being scrollable, as it is when its scroll bar sends the
    message).  The move is animated; the position is the one the animation
    ends at. *)
Definition Widget_on_scroll_to (self : RichLog) (message : ScrollTo) : RichLog :=
  match y message with
  | Some target => set_scroll self (clamp target 0 (max_scroll_y self)) (max_scroll_y self)
  | None => self
  end.

End Textual.

(* ------------------------------------------------------------------ *)
(** ** trickkiste.logging_helper *)

Module LoggingHelper.
Import Py Logging.

(** Modelled from the spec: the module [logging_helper] is not part of the
    sources.  A level is given by number or by name ([int | str]). *)
Inductive Level : Type :=
| LevelNo (n : Z)
| LevelName (s : string).

(** Modelled from the spec: [LogLevelSpec] of [logging_helper], which is
    not part of the sources.  A spec is the minimum severity shown in the
    log pane, or an explicit override for one logger. *)
Inductive LogLevelSpec : Type :=
| Shown (l : Level)
| Override (logger : string) (l : Level).

(** What the platform and [logging_helper] supply and the sources do not
    fix: the rendering of a time stamp, the call-stack summary and thread
    id at the logging call, the display form of a logger name, the
    severity threshold that a configuration puts in force for a logger (a
    level of [logging]: [NOTSET], which is 0, or above), and what rich's
    table of emoji names makes of a text. *)
Record Env : Type := mkEnv {
  formatTime : option string -> Z -> string;
  callstack_summary : LogRecord -> string;
  posix_tid : LogRecord -> Z;
  display_name : string -> string;
  threshold : list LogLevelSpec -> Level -> string -> N;
  emoji_table : string -> string
}.

(** The process-wide state of [logging]: the root logger's handlers and
    the level configuration in force. *)
Record Registry : Type := mkRegistry {
  root_handlers : list Handler;
  levels : list LogLevelSpec;
  others_level : Level
}.

(** Modelled from the spec: [set_log_levels] of [logging_helper] (not part
    of the sources) sets the minimum severity shown in the log pane:
    [levels] for the loggers shown, [others_level] for all other loggers.
    The thresholds are those of the loggers ([threshold] gives the one in
    force for a logger); the handlers of the root logger are opened
    ([NOTSET]), so that a record is shown exactly when its logger lets it
    through. *)
Definition set_log_levels (levels : list LogLevelSpec) (others_level : Level)
           (reg : Registry) : Registry :=
  mkRegistry (map (fun handler => setLevel handler NOTSET) (root_handlers reg))
             levels others_level.

(** [markup_escape(arg) if isinstance(arg, str) else arg], for a filter
    that never raises. *)
Definition escape_value (v : PyVal) : PyVal :=
  match v with
  | PyStr s => PyStr (Rich.escape s)
  | _ => v
  end.

(** Modelled from the spec: the four filters of [logging_helper] (not part
    of the sources).  The call-stack filter attaches a textual call-stack
    summary, the thread-id filter the current thread's identifier, the
    markup-escaping filter escapes message and string arguments once
    more, and the logger-name filter normalizes the logger name for
    display.  None of them rejects a record. *)
Definition run_filter (env : Env) (f : Filter) (r : LogRecord) : bool * LogRecord :=
  match f with
  | callstack_filter => (true, set_callstack r (callstack_summary env r))
  | thread_id_filter => (true, set_posixTID r (posix_tid env r))
  | markup_escape_filter =>
      let r := match args r with
               | ArgsTuple items => set_args r (ArgsTuple (map escape_value items))
               | _ => r
               end in
      (true, set_msg r (escape_value (msg r)))
  | logger_name_filter => (true, set_name r (display_name env (name r)))
  end.

End LoggingHelper.

(* ------------------------------------------------------------------ *)
(** ** The handler: [class RichLogHandler(RichHandler)] *)

Module RichLogHandler.
Import Py Logging Textual LoggingHelper.

(** [__init__(self, widget, level=logging.INFO)]: rich's time and path
    cells are switched off and markup is on; [show_level] is not passed
    and keeps the default of [RichHandler], which is on. *)
Definition init (widget : string) (level : Z) : Handler :=
  mkHandler level [] None false true false true widget.

(** [rich.markup.escape] applied to a Python value: the pattern
    substitution needs a string. *)
Definition markup_escape (v : PyVal) : Outcome string :=
  match v with
  | PyStr s => Ok (Rich.escape s)
  | _ => Raise (TypeError "expected string or bytes-like object")
  end.

(** [markup_escape(arg) if isinstance(arg, str) else arg] *)
Definition escape_arg (arg : PyVal) : Outcome PyVal :=
  if isinstance_str arg then s <- markup_escape arg ;; Ok (PyStr s)
  else Ok arg.

Fixpoint escape_items (items : list PyVal) : Outcome (list PyVal) :=
  match items with
  | [] => Ok []
  | arg :: rest =>
      arg' <- escape_arg arg ;;
      rest' <- escape_items rest ;;
      Ok (arg' :: rest')
  end.

(** [record.args and tuple(... for arg in record.args)] *)
Definition escape_args (a : PyArgs) : Outcome PyArgs :=
  if truthy a then
    items <- iter a ;;
    items' <- escape_items items ;;
    Ok (ArgsTuple items')
  else Ok a.

(** [RichHandler.render_message]: markup is on, so the message becomes a
    [Text.from_markup]. *)
Definition render_message (self : Handler) (record : LogRecord) (message : string)
  : Outcome Text :=
  if markup self then from_markup message else Ok (PlainText message).

(** [RichHandler.get_level_text]: [record.levelname.ljust(8)] *)
Definition get_level_text (record : LogRecord) : string :=
  pad true 8 (levelname record).

(** [RichHandler.render(record=..., message_renderable=..., traceback=None)] *)
Definition render (self : Handler) (record : LogRecord) (message_renderable : Text)
  : Renderable :=
  LogRow record
         (if show_level self then Some (get_level_text record) else None)
         message_renderable.

(** [emit(self, record)]; the second component is the widget
    [self.widget] after the call. *)
Definition emit (env : Env) (self : Handler) (record : LogRecord) (widget : RichLog)
  : Outcome (LogRecord * RichLog) :=
  args' <- escape_args (args record) ;;
  let record := set_args record args' in
  msg' <- markup_escape (msg record) ;;
  let record := set_msg record (PyStr msg') in
  formatted <- Handler_format (formatTime env) self record ;;
  let (record, text) := formatted in
  message_renderable <- render_message self record text ;;
  Ok (record, write widget (render self record message_renderable)).

End RichLogHandler.

(* ------------------------------------------------------------------ *)
(** ** The widget: [class LockingRichLog(RichLog)] *)

Module LockingRichLog.
Import Textual.

(** [LockingRichLog(id="app_log")]: an empty log with auto-scroll on. *)
Definition init : RichLog := mkRichLog [] true 0 0.

(** [@on(ScrollTo) on_scroll_to(self, _event)] *)
Definition on_scroll_to (self : RichLog) (_event : ScrollTo) : RichLog :=
  set_auto_scroll self (is_vertical_scroll_end self).

(** A [ScrollTo] message that reaches the widget: textual calls the
    handlers of a message along the classes of the widget, the most
    derived class first, so [on_scroll_to] runs before the framework's own
    [Widget._on_scroll_to] moves the view. *)
Definition dispatch_scroll_to (self : RichLog) (message : ScrollTo) : RichLog :=
  Widget_on_scroll_to (on_scroll_to self message) message.

End LockingRichLog.

(* ------------------------------------------------------------------ *)
(** ** The application shell: [class TuiBaseApp(App[None])] *)

Module TuiBaseApp.
Import Py Logging Textual LoggingHelper.

(** The attributes [__init__] sets; [_richlog] is the state of the
    [LockingRichLog] with id [app_log], [_footer_label] the markup of the
    text that the footer label shows. *)
Record App : Type := mkApp {
  _richlog : RichLog;
  _logger_show_level : bool;
  _logger_show_time : bool;
  _logger_show_name : bool;
  _logger_show_callstack : bool;
  _logger_show_funcname : bool;
  _logger_show_tid : bool;
  _log_level : list LogLevelSpec;
  _footer_label : string
}.

(** [__init__(self, logger_show_level=True, ..., logger_show_tid=False)] *)
Definition init (logger_show_level logger_show_time logger_show_name
                 logger_show_callstack logger_show_funcname logger_show_tid : bool)
  : App :=
  mkApp LockingRichLog.init
        logger_show_level logger_show_time logger_show_name
        logger_show_callstack logger_show_funcname logger_show_tid
        [Shown (LevelNo INFO)]
        "nonsense".

(** [TuiBaseApp()] with every parameter at its default. *)
Definition init_default : App := init true true true false false false.

(** The program state: the application object and the process-wide
    logging state. *)
Record World : Type := mkWorld {
  app : App;
  logging : Registry
}.

(** The methods a concrete subclass may define; [hasattr(self, ...)] is
    whether the field is there. *)
Record Hooks : Type := mkHooks {
  initialize : option (World -> World);
  cleanup : option (World -> World)
}.

Definition set_app (w : World) (a : App) : World := mkWorld a (logging w).
Definition set_logging (w : World) (reg : Registry) : World := mkWorld (app w) reg.

Definition set_richlog (a : App) (log : RichLog) : App :=
  mkApp log (_logger_show_level a) (_logger_show_time a) (_logger_show_name a)
        (_logger_show_callstack a) (_logger_show_funcname a) (_logger_show_tid a)
        (_log_level a) (_footer_label a).

(** [compose]: the widgets, by DOM id, in the order they are yielded. *)
Definition compose (self : App) : list string := ["app_log"; "footer"].

(** [logging.getLogger().handlers = handlers] *)
Definition set_root_handlers (w : World) (handlers : list Handler) : World :=
  set_logging w (mkRegistry handlers (levels (logging w)) (others_level (logging w))).

(** A call on the object that [handler] names in [on_mount]: the handler
    is the one the root logger's list holds, so the list sees the call. *)
Definition on_handler (f : Handler -> Handler) (w : World) : World :=
  set_root_handlers w (map f (root_handlers (logging w))).

(** The format string [on_mount] assembles. *)
Definition log_format (self : App) : string :=
  let opt_time := if _logger_show_time self then "│ %(asctime)s " else "" in
  let opt_name := if _logger_show_name self then "│ [grey53]%(name)-16s[/] " else "" in
  let opt_funcname :=
    if _logger_show_funcname self then "│ [grey53]%(funcName)-32s[/] " else "" in
  let opt_callstack :=
    if _logger_show_callstack self then "│ [grey53]%(callstack)-32s[/] " else "" in
  let opt_tid := if _logger_show_tid self then "│ [grey53]%(posixTID)-8s[/] " else "" in
  "│ %(asctime)s"
  ++ (opt_time ++ opt_tid ++ opt_name ++ opt_funcname ++ opt_callstack)
  ++ "│ [bold white]%(message)s[/]".

(** [set_log_levels(self, *levels, others_level=logging.WARNING)] *)
Definition set_log_levels (levels : list LogLevelSpec) (others_level : Level)
           (w : World) : World :=
  let w := set_logging w (LoggingHelper.set_log_levels levels others_level (logging w)) in
  let self := app w in
  set_app w (mkApp (_richlog self) (_logger_show_level self) (_logger_show_time self)
                   (_logger_show_name self) (_logger_show_callstack self)
                   (_logger_show_funcname self) (_logger_show_tid self)
                   levels (_footer_label self)).

(** [on_mount(self)] *)
Definition on_mount (hooks : Hooks) (w : World) : World :=
  let self := app w in
  let w := set_root_handlers w [RichLogHandler.init "app_log" INFO] in
  let w := if _logger_show_callstack self
           then on_handler (fun handler => addFilter handler callstack_filter) w
           else w in
  let w := if _logger_show_tid self
           then on_handler (fun handler => addFilter handler thread_id_filter) w
           else w in
  let w := on_handler (fun handler => addFilter handler markup_escape_filter) w in
  let w := on_handler (fun handler => addFilter handler logger_name_filter) w in
  let w := on_handler
             (fun handler =>
                setFormatter handler
                  (mkFormatter (log_format self) (Some "%Y-%m-%d %H:%M:%S"))) w in
  let w := set_log_levels (_log_level self) (LevelNo WARNING) w in
  match initialize hooks with
  | Some initialize => initialize w
  | None => w
  end.

(** [update_status_bar(self, text)]: [Label.update] reads the text as
    markup and raises when it is malformed; the label then keeps what it
    showed. *)
Definition update_status_bar (text : string) (w : World) : Outcome World :=
  let self := app w in
  _ <- from_markup text ;;
  Ok (set_app w (mkApp (_richlog self) (_logger_show_level self) (_logger_show_time self)
                       (_logger_show_name self) (_logger_show_callstack self)
                       (_logger_show_funcname self) (_logger_show_tid self)
                       (_log_level self) text)).

(** How [asyncio.run(self.run_async())] ends: the event loop runs to
    completion, an exception escapes it, or it never ends. *)
Inductive LoopResult : Type :=
| Completed (w : World)
| Crashed (e : Exn)
| Running.

(** The calls [execute] makes, in the order it makes them, and how it
    ends. *)
Inductive Call : Type :=
| CallRunAsync
| LoopCompleted
| CallCleanup.

Inductive Ending : Type :=
| Returns (w : World)
| Raises (e : Exn)
| Blocks.

(** [execute(self)] *)
Definition execute (run_async : World -> LoopResult) (hooks : Hooks) (w : World)
  : list Call * Ending :=
  match run_async w with
  | Running => ([CallRunAsync], Blocks)
  | Crashed e => ([CallRunAsync], Raises e)
  | Completed w =>
      match cleanup hooks with
      | Some cleanup => ([CallRunAsync; LoopCompleted; CallCleanup], Returns (cleanup w))
      | None => ([CallRunAsync; LoopCompleted], Returns w)
      end
  end.

(** *** The logging calls of the process, once the handlers are set *)

(** [Logger.callHandlers]: every handler of the root logger whose level
    the record reaches handles it, in order; an exception ends the call.
    What a handler writes goes to the widget it holds. *)
Fixpoint callHandlers (env : Env) (handlers : list Handler) (record : LogRecord)
         (log : RichLog) : RichLog * option Exn :=
  match handlers with
  | [] => (log, None)
  | hdlr :: rest =>
      if (level hdlr <=? levelno record)%Z then
        match Handler_handle (run_filter env) (RichLogHandler.emit env)
                             hdlr record log with
        | Ok (record', log') => callHandlers env rest record' log'
        | Raise e => (log, Some e)
        end
      else callHandlers env rest record log
  end.

(** [Logger.isEnabledFor]: the record's severity against the threshold in
    force for its logger. *)
Definition isEnabledFor (env : Env) (reg : Registry) (record : LogRecord) : bool :=
  (Z.of_N (threshold env (levels reg) (others_level reg) (name record))
   <=? levelno record)%Z.

(** A logging call: a record the logger is enabled for reaches the
    handlers; an exception goes to the caller and the world stays as the
    handlers left it. *)
Definition log_record (env : Env) (w : World) (record : LogRecord) : World :=
  let reg := logging w in
  if isEnabledFor env reg record
  then set_app w (set_richlog (app w)
                    (fst (callHandlers env (root_handlers reg) record (_richlog (app w)))))
  else w.


End TuiBaseApp.

(* ------------------------------------------------------------------ *)
(** ** Vocabulary of the statements *)

Import Py Logging Textual LoggingHelper TuiBaseApp.

(** The filters [on_mount] installs for the toggles of an application, in
    installation order. *)
Definition filter_chain (self : App) : list Filter :=
  ((if _logger_show_callstack self then [callstack_filter] else [])
   ++ (if _logger_show_tid self then [thread_id_filter] else [])
   ++ [markup_escape_filter; logger_name_filter])%list.

(** A record after it went through filters one after the other. *)
Definition through_filters (env : Env) (fs : list Filter) (r : LogRecord) : LogRecord :=
  fold_left (fun r f => snd (run_filter env f r)) fs r.

(** The handler [on_mount] leaves in the root logger's list. *)
Definition mounted_handler (self : App) : Handler :=
  mkHandler NOTSET (filter_chain self)
            (Some (mkFormatter (log_format self) (Some "%Y-%m-%d %H:%M:%S")))
            false true false true "app_log".

(** The [initialize] hook of a subclass, if there is one, leaves the root
    logger's handlers alone. *)
Definition keeps_handlers (hooks : Hooks) : Prop :=
  forall initialize, TuiBaseApp.initialize hooks = Some initialize ->
  forall w, root_handlers (logging (initialize w)) = root_handlers (logging w).

(** The record attributes a format string refers to, in order. *)
Definition format_fields (fmt : string) : list string :=
  match parse fmt with
  | Ok segs => keys_of segs
  | Raise _ => []
  end.

(** A scroll event as the widget sees it: where the view is and where the
    content ends when the message is delivered, and the message. *)
Record ScrollEvent : Type := mkScrollEvent {
  view_y : Z;
  end_y : Z;
  scroll_message : ScrollTo
}.

Definition deliver_scroll (w : RichLog) (ev : ScrollEvent) : RichLog :=
  LockingRichLog.dispatch_scroll_to (set_scroll w (view_y ev) (end_y ev))
                                    (scroll_message ev).

(** The same message once more, the view being where the widget is now. *)
Definition repeated (w : RichLog) (ev : ScrollEvent) : ScrollEvent :=
  mkScrollEvent (scroll_y w) (max_scroll_y w) (scroll_message ev).

(** How often [execute] called the cleanup hook. *)
Definition cleanup_calls (calls : list Call) : nat :=
  List.length (filter (fun c => match c with CallCleanup => true | _ => false end) calls).

(** Text without an opening bracket and without a backslash: no tag starts
    in it and it escapes none that follows. *)
Fixpoint plain (s : string) : bool :=
  match s with
  | EmptyString => true
  | String c r => negb (Ascii.eqb c "[") && negb (Ascii.eqb c "\") && plain r
  end.


(** The part of [emit] that does not touch the widget: the record as
    [emit] leaves it and the renderable it writes. *)
Definition emit_line (env : Env) (self : Handler) (record : LogRecord)
  : Outcome (LogRecord * Renderable) :=
  args' <- RichLogHandler.escape_args (args record) ;;
  let record := set_args record args' in
  msg' <- RichLogHandler.markup_escape (msg record) ;;
  let record := set_msg record (PyStr msg') in
  formatted <- Handler_format (formatTime env) self record ;;
  let (record, text) := formatted in
  message_renderable <- RichLogHandler.render_message self record text ;;
  Ok (record, RichLogHandler.render self record message_renderable).


(** What handling a record writes: the line, or nothing when a filter
    rejects the record or [emit] raises (an outcome that is not described
    counts as raising; see [handling_described]). *)
Definition written (env : Env) (h : Handler) (r : LogRecord) : list Renderable :=
  let (keep, r') := Filterer_filter (run_filter env) (filters h) r in
  if keep then
    match emit_line env h r' with
    | Ok (_, line) => [line]
    | Raise _ => []
    end
  else [].

(** Does handling the record return (rather than raise)? *)
Definition handles (env : Env) (h : Handler) (r : LogRecord) : bool :=
  returned (Handler_handle (run_filter env) (RichLogHandler.emit env) h r
                           LockingRichLog.init).



(** The formatter [Handler.format] uses. *)
Definition formatter_of (h : Handler) : Formatter :=
  match formatter h with
  | Some f => f
  | None => _defaultFormatter
  end.

(** *** Vocabulary for the soundness of [rich.markup.escape] *)

(** The escaped text of the tokens [scan] reads from [s] after skipping [k]
    characters. *)
Definition esc (k : nat) (s : string) : string :=
  Rich.escape_tokens (Rich.scan k s).

(** A tag with its brackets, and the text after it. *)
Definition bracket (tag rest : string) : string :=
  String "[" (tag ++ String "]" rest).

Definition starts_with_backslash (s : string) : bool :=
  match s with
  | String c _ => Ascii.eqb c "\"
  | EmptyString => false
  end.

(** The tokens of a text after escaping: every tag has an odd number of
    backslashes in front. *)
Fixpoint odd_tokens (ts : list Rich.Token) : list Rich.Token :=
  match ts with
  | [] => []
  | Rich.Chr c :: rest => Rich.Chr c :: odd_tokens rest
  | Rich.Tag k tag :: rest => Rich.Tag (k + k + 1) tag :: odd_tokens rest
  end.



(** *** The log line, field by field *)

(** One optional field of the log line: a bar, the padded value in grey, a
    space; [rest] is what follows. *)
Definition field_block (value rest : string) : string :=
  "│ " ++ bracket "grey53" (value ++ bracket "/" (" " ++ rest)).

(** The second time stamp, which the time toggle adds. *)
Definition time_block (ts rest : string) : string :=
  "│ " ++ ts ++ " " ++ rest.

Definition optional (on : bool) (block : string -> string) (rest : string) : string :=
  if on then block rest else rest.

(** The text the formatter of [on_mount] produces from the values of the
    fields. *)
Definition line_text (a : App) (ts tid nm fn cs message : string) : string :=
  "│ " ++ ts
  ++ optional (_logger_show_time a) (time_block ts)
      (optional (_logger_show_tid a) (field_block (pad true 8 tid))
        (optional (_logger_show_name a) (field_block (pad true 16 nm))
          (optional (_logger_show_funcname a) (field_block (pad true 32 fn))
            (optional (_logger_show_callstack a) (field_block (pad true 32 cs))
              ("│ " ++ bracket "bold white" (message ++ "[/]")))))).


(** *** Sample inputs *)

Definition sample_env : Env :=
  mkEnv (fun _ _ => "2024-05-17 09:30:00")
        (fun _ => "main>run")
        (fun _ => 4242%Z)
        (fun name => name)
        (fun _ _ _ => 20%N)
        (fun text => text).

Definition sample_registry : Registry :=
  mkRegistry [RichLogHandler.init "stale" DEBUG] [] (LevelNo WARNING).


(** A hook that sets the status bar; a text that is malformed markup
    leaves the world as it is. *)
Definition set_status (text : string) (w : World) : World :=
  match update_status_bar text w with
  | Ok w' => w'
  | Raise _ => w
  end.

(** A subclass whose [initialize] sets the status bar and whose [cleanup]
    clears it. *)
Definition status_hooks : Hooks :=
  mkHooks (Some (set_status "ready")) (Some (set_status "")).

Definition sample_record (msg : PyVal) (args : PyArgs) : LogRecord :=
  mkLogRecord "trickkiste.base_app" INFO msg args 1715930000 "main"
              None None None None None None None.


(** *** Vocabulary of the further properties *)

(** What happens to the log widget: the handler emits a record into it, or
    a scroll event is delivered to it. *)
Inductive PaneEvent : Type :=
| Emitted (r : LogRecord)
| Scrolled (ev : ScrollEvent).

(** One event; a record on which [emit] raises leaves the widget as it
    is. *)
Definition pane_step (env : Env) (h : Handler) (w : RichLog) (e : PaneEvent) : RichLog :=
  match e with
  | Emitted r =>
      match RichLogHandler.emit env h r w with
      | Ok (_, w') => w'
      | Raise _ => w
      end
  | Scrolled ev => deliver_scroll w ev
  end.

Definition pane_run (env : Env) (h : Handler) (w : RichLog) (es : list PaneEvent)
  : RichLog :=
  fold_left (pane_step env h) es w.

(** The line [emit] writes for a record, if it writes one. *)
Definition emitted (env : Env) (h : Handler) (r : LogRecord) : list Renderable :=
  match emit_line env h r with
  | Ok (_, line) => [line]
  | Raise _ => []
  end.

(** The lines the records among the events give, in order. *)
Fixpoint emitted_lines (env : Env) (h : Handler) (es : list PaneEvent) : list Renderable :=
  match es with
  | [] => []
  | Emitted r :: rest => (emitted env h r ++ emitted_lines env h rest)%list
  | Scrolled _ :: rest => emitted_lines env h rest
  end.

(** The last scroll event among the events, if there is one. *)
Fixpoint last_scroll (es : list PaneEvent) : option ScrollEvent :=
  match es with
  | [] => None
  | Scrolled ev :: rest =>
      match last_scroll rest with
      | Some ev' => Some ev'
      | None => Some ev
      end
  | Emitted _ :: rest => last_scroll rest
  end.

(** Does the text hold a tag (escaped or not)? *)
Definition has_tag (s : string) : bool :=
  existsb (fun t => match t with Rich.Tag _ _ => true | Rich.Chr _ => false end)
          (Rich.scan 0 s).

(** The backslashes escaping adds to tokens: one more than it has for
    every tag. *)
Fixpoint added_backslashes (ts : list Rich.Token) : nat :=
  match ts with
  | [] => 0
  | Rich.Chr _ :: rest => added_backslashes rest
  | Rich.Tag k _ :: rest => k + 1 + added_backslashes rest
  end.

(** Every conversion of the format names a record attribute and converts
    with [s]. *)
Definition keyed_strings (segs : list Segment) : bool :=
  forallb (fun seg => match seg with
                      | Lit _ => true
                      | Conv (Some _) _ _ conv => Ascii.eqb conv "s"
                      | Conv None _ _ _ => false
                      end) segs.

(* ------------------------------------------------------------------ *)
(** ** Properties of [on_mount] *)

Lemma on_mount_before_hook (hooks : Hooks) (w : World) :
  on_mount hooks w =
  let configured :=
    set_log_levels (_log_level (app w)) (LevelNo WARNING)
                   (set_root_handlers w [mounted_handler (app w)]) in
  match initialize hooks with
  | Some initialize => initialize configured
  | None => configured
  end.
Proof.
  unfold on_mount, mounted_handler, filter_chain.
  destruct w as [a reg]; cbn [app].
  destruct (_logger_show_callstack a), (_logger_show_tid a); reflexivity.
Qed.

Lemma on_mount_root_handlers (hooks : Hooks) (w : World) :
  keeps_handlers hooks ->
  root_handlers (logging (on_mount hooks w)) = [mounted_handler (app w)].
Proof.
  intros Hkeep. rewrite on_mount_before_hook. cbn zeta.
  destruct (initialize hooks) as [f|] eqn:Hinit.
  - rewrite (Hkeep f Hinit). reflexivity.
  - reflexivity.
Qed.

Lemma keeps_handlers_no_initialize (c : option (World -> World)) :
  keeps_handlers (mkHooks None c).
Proof. intros f Hf. discriminate Hf. Qed.

Lemma keeps_handlers_status_hooks : keeps_handlers status_hooks.
Proof.
  intros f Hf w. injection Hf as <-. reflexivity.
Qed.

Lemma through_filters_accepts (env : Env) (fs : list Filter) (r : LogRecord) :
  Filterer_filter (run_filter env) fs r = (true, through_filters env fs r).
Proof.
  revert r. induction fs as [|f fs IH]; intros r.
  - reflexivity.
  - cbn [Filterer_filter through_filters fold_left].
    destruct f; cbn [run_filter snd]; apply IH.
Qed.

(** C7. Whatever the toggles, [on_mount] leaves a handler whose filters are,
    in this order: the call-stack filter exactly when call-stack display is
    on, the thread-id filter exactly when thread-id display is on, the
    markup-escaping filter, the logger-name filter.  A record handled by
    that handler goes through these filters in that order, and what [emit]
    formats is the record as the last filter left it. *)
Theorem on_mount_filter_chain (hooks : Hooks) (w : World) :
  keeps_handlers hooks ->
  exists handler,
    root_handlers (logging (on_mount hooks w)) = [handler]
    /\ filters handler =
         ((if _logger_show_callstack (app w) then [callstack_filter] else [])
          ++ (if _logger_show_tid (app w) then [thread_id_filter] else [])
          ++ [markup_escape_filter; logger_name_filter])%list
    /\ (forall (W : Type) run emit record (log : W),
          Handler_handle run emit handler record log
          = let (keep, record') := Filterer_filter run (filters handler) record in
            if keep then emit handler record' log else Ok (record', log))
    /\ (forall env record log,
          Handler_handle (run_filter env) (RichLogHandler.emit env) handler record log
          = RichLogHandler.emit env handler
              (snd (run_filter env logger_name_filter
                 (snd (run_filter env markup_escape_filter
                    (let r1 := if _logger_show_callstack (app w)
                               then snd (run_filter env callstack_filter record)
                               else record in
                     if _logger_show_tid (app w)
                     then snd (run_filter env thread_id_filter r1)
                     else r1)))))
              log).
Proof.
  intros Hkeep. exists (mounted_handler (app w)).
  split; [apply on_mount_root_handlers; exact Hkeep|].
  split; [reflexivity|].
  split; [reflexivity|].
  intros env record log. unfold Handler_handle.
  rewrite through_filters_accepts.
  cbn [filters mounted_handler]. unfold filter_chain.
  destruct (_logger_show_callstack (app w)), (_logger_show_tid (app w)); reflexivity.
Qed.

Lemma on_mount_filter_chain_witness :
  exists handler,
    root_handlers (logging (on_mount status_hooks
                     (mkWorld (init true true true true false true) sample_registry)))
    = [handler]
    /\ filters handler =
         [callstack_filter; thread_id_filter; markup_escape_filter; logger_name_filter].
Proof.
  destruct (on_mount_filter_chain status_hooks
              (mkWorld (init true true true true false true) sample_registry)
              keeps_handlers_status_hooks) as [handler [H1 [H2 _]]].
  exists handler. split; [exact H1 | exact H2].
Defined.

(** C8. When [on_mount] is done, the root logger's handler list holds one
    handler and no other: the [RichLogHandler] on the application's log
    widget ([app_log]), with the filters and the formatter of the toggles
    (and the level [set_log_levels] leaves it).  Whatever handlers the list
    held before are gone. *)
Theorem on_mount_sole_handler (hooks : Hooks) (w : World) :
  keeps_handlers hooks ->
  root_handlers (logging (on_mount hooks w))
  = [setLevel
       (setFormatter
          (fold_left addFilter (filter_chain (app w)) (RichLogHandler.init "app_log" INFO))
          (mkFormatter (log_format (app w)) (Some "%Y-%m-%d %H:%M:%S")))
       NOTSET]
  /\ List.length (root_handlers (logging (on_mount hooks w))) = 1%nat
  /\ (forall handler, In handler (root_handlers (logging (on_mount hooks w))) ->
      widget handler = "app_log" /\ In (widget handler) (compose (app w)))
  /\ (forall stale,
        root_handlers (logging (on_mount hooks (set_root_handlers w stale)))
        = root_handlers (logging (on_mount hooks w))).
Proof.
  intros Hkeep.
  assert (Hm : forall a, mounted_handler a =
            setLevel
              (setFormatter
                 (fold_left addFilter (filter_chain a) (RichLogHandler.init "app_log" INFO))
                 (mkFormatter (log_format a) (Some "%Y-%m-%d %H:%M:%S")))
              NOTSET).
  { intros a. unfold mounted_handler, filter_chain.
    destruct (_logger_show_callstack a), (_logger_show_tid a); reflexivity. }
  rewrite (on_mount_root_handlers hooks w Hkeep).
  split; [rewrite Hm; reflexivity|].
  split; [reflexivity|].
  split.
  - intros handler [<-|[]]. split; [reflexivity | left; reflexivity].
  - intros stale. rewrite (on_mount_root_handlers hooks _ Hkeep). reflexivity.
Qed.

Lemma on_mount_sole_handler_witness :
  List.length (root_handlers (logging (on_mount status_hooks
                                 (mkWorld init_default sample_registry)))) = 1%nat.
Proof.
  exact (proj1 (proj2 (on_mount_sole_handler status_hooks
                         (mkWorld init_default sample_registry)
                         keeps_handlers_status_hooks))).
Defined.

(* ------------------------------------------------------------------ *)
(** ** Properties of [execute] *)

(** C9. [execute] never calls the cleanup hook before the event loop has
    run to completion: whatever it did before a call of the hook includes
    the completion of the loop, and when the loop does not complete (an
    exception escapes it, or it never ends) the hook is not called at all.
    When the loop has completed, the hook is called once if the subclass
    defines it and not at all otherwise, and [execute] returns the world
    the hook (or the loop) left. *)
Theorem execute_cleanup_after_loop
        (run_async : World -> LoopResult) (hooks : Hooks) (w : World) :
  let calls := fst (execute run_async hooks w) in
  let ending := snd (execute run_async hooks w) in
  (forall before after,
     calls = (before ++ CallCleanup :: after)%list -> In LoopCompleted before)
  /\ match run_async w with
     | Completed w' =>
         match cleanup hooks with
         | Some cleanup =>
             cleanup_calls calls = 1%nat /\ ending = Returns (cleanup w')
         | None =>
             cleanup_calls calls = 0%nat /\ ending = Returns w'
         end
     | Crashed e => cleanup_calls calls = 0%nat /\ ending = Raises e
     | Running => cleanup_calls calls = 0%nat /\ ending = Blocks
     end.
Proof.
  unfold execute.
  destruct (run_async w) as [w'|e|]; [destruct (cleanup hooks)|..]; cbn;
    (split; [|split; reflexivity]);
    intros before after H;
    destruct before as [|b1 [|b2 [|b3 before]]]; cbn in H;
    try discriminate H;
    injection H as H1 H2 H3; subst; try discriminate;
    try (right; left; reflexivity);
    destruct before; discriminate.
Qed.

(* ------------------------------------------------------------------ *)
(** ** Properties of [LockingRichLog] *)

Lemma on_scroll_to_flag (w : RichLog) (ev : ScrollTo) :
  auto_scroll (LockingRichLog.on_scroll_to w ev) = is_vertical_scroll_end w
  /\ scroll_y (LockingRichLog.on_scroll_to w ev) = scroll_y w
  /\ max_scroll_y (LockingRichLog.on_scroll_to w ev) = max_scroll_y w
  /\ lines (LockingRichLog.on_scroll_to w ev) = lines w.
Proof. repeat split; reflexivity. Qed.

Lemma Widget_on_scroll_to_keeps (w : RichLog) (ev : ScrollTo) :
  auto_scroll (Widget_on_scroll_to w ev) = auto_scroll w
  /\ lines (Widget_on_scroll_to w ev) = lines w
  /\ max_scroll_y (Widget_on_scroll_to w ev) = max_scroll_y w.
Proof. unfold Widget_on_scroll_to. destruct (y ev); repeat split; reflexivity. Qed.

Lemma deliver_scroll_flag (w : RichLog) (ev : ScrollEvent) :
  auto_scroll (deliver_scroll w ev) = (view_y ev =? end_y ev)%Z
  /\ lines (deliver_scroll w ev) = lines w
  /\ max_scroll_y (deliver_scroll w ev) = end_y ev.
Proof.
  unfold deliver_scroll, LockingRichLog.dispatch_scroll_to.
  destruct (Widget_on_scroll_to_keeps
              (LockingRichLog.on_scroll_to (set_scroll w (view_y ev) (end_y ev))
                                           (scroll_message ev))
              (scroll_message ev)) as (-> & -> & ->).
  repeat split; reflexivity.
Qed.

Lemma deliver_scroll_position (w : RichLog) (ev : ScrollEvent) (target : Z) :
  y (scroll_message ev) = Some target ->
  scroll_y (deliver_scroll w ev) = clamp target 0 (end_y ev).
Proof.
  intros Hy. unfold deliver_scroll, LockingRichLog.dispatch_scroll_to, Widget_on_scroll_to.
  rewrite Hy. reflexivity.
Qed.

(** C5, where the code departs from it.  [on_scroll_to] runs before the
    framework moves the view, so what it stores is whether the view was at
    the end of the content before the move that the message asks for.
    When a message of the scroll bar takes the view from the end of the
    content to a position before it, [auto_scroll] is true afterwards
    although the view is no longer at the end; and when the same message
    is delivered once more, the view being where the first delivery left
    it, the flag turns to false: the transition is not idempotent. *)
Theorem on_scroll_to_reads_position_before_move
        (w : RichLog) (ev : ScrollEvent) (target : Z) :
  y (scroll_message ev) = Some target ->
  view_y ev = end_y ev ->
  (0 <= target < end_y ev)%Z ->
  let w1 := deliver_scroll w ev in
  let w2 := deliver_scroll w1 (repeated w1 ev) in
  (auto_scroll w1 = true /\ scroll_y w1 = target /\ max_scroll_y w1 = end_y ev
   /\ is_vertical_scroll_end w1 = false)
  /\ (auto_scroll w2 = false /\ scroll_y w2 = target /\ auto_scroll w2 <> auto_scroll w1)
  /\ lines w2 = lines w.
Proof.
  intros Hy Hend Htarget w1 w2.
  assert (Hclamp : clamp target 0 (end_y ev) = target) by (unfold clamp; lia).
  destruct (deliver_scroll_flag w ev) as (Hflag1 & Hlines1 & Hmax1).
  pose proof (deliver_scroll_position w ev target Hy) as Hpos1.
  fold w1 in Hflag1, Hlines1, Hmax1, Hpos1. rewrite Hclamp in Hpos1.
  assert (Hauto1 : auto_scroll w1 = true).
  { rewrite Hflag1. apply Z.eqb_eq. exact Hend. }
  assert (Hnot : is_vertical_scroll_end w1 = false).
  { unfold is_vertical_scroll_end. rewrite Hpos1, Hmax1. apply Z.eqb_neq. lia. }
  destruct (deliver_scroll_flag w1 (repeated w1 ev)) as (Hflag2 & Hlines2 & Hmax2).
  pose proof (deliver_scroll_position w1 (repeated w1 ev) target Hy) as Hpos2.
  fold w2 in Hflag2, Hlines2, Hmax2, Hpos2.
  cbn [repeated view_y end_y] in Hflag2, Hpos2.
  assert (Hauto2 : auto_scroll w2 = false).
  { rewrite Hflag2. exact Hnot. }
  split; [repeat split; assumption|]. split.
  - split; [exact Hauto2|]. split.
    + rewrite Hpos2, Hmax1. exact Hclamp.
    + rewrite Hauto1, Hauto2. discriminate.
  - rewrite Hlines2. exact Hlines1.
Qed.

Lemma on_scroll_to_reads_position_before_move_witness :
  auto_scroll (deliver_scroll LockingRichLog.init
                 (mkScrollEvent 40 40 (mkScrollTo None (Some 25%Z) true))) = true
  /\ scroll_y (deliver_scroll LockingRichLog.init
                 (mkScrollEvent 40 40 (mkScrollTo None (Some 25%Z) true))) = 25%Z
  /\ max_scroll_y (deliver_scroll LockingRichLog.init
                     (mkScrollEvent 40 40 (mkScrollTo None (Some 25%Z) true))) = 40%Z
  /\ is_vertical_scroll_end (deliver_scroll LockingRichLog.init
                 (mkScrollEvent 40 40 (mkScrollTo None (Some 25%Z) true))) = false.
Proof.
  refine (proj1 (on_scroll_to_reads_position_before_move LockingRichLog.init
                   (mkScrollEvent 40 40 (mkScrollTo None (Some 25%Z) true)) 25
                   eq_refl eq_refl _)).
  cbn. lia.
Defined.

(* ------------------------------------------------------------------ *)
(** ** The escaping step of [emit] *)

Lemma escape_arg_total (arg : PyVal) :
  RichLogHandler.escape_arg arg = Ok (escape_value arg).
Proof. destruct arg; reflexivity. Qed.

Lemma escape_items_total (items : list PyVal) :
  RichLogHandler.escape_items items = Ok (map escape_value items).
Proof.
  induction items as [|arg rest IH]; [reflexivity|].
  cbn [RichLogHandler.escape_items map]. rewrite escape_arg_total, IH. reflexivity.
Qed.

Lemma escape_args_falsy (a : PyArgs) :
  truthy a = false -> RichLogHandler.escape_args a = Ok a.
Proof. intros H. unfold RichLogHandler.escape_args. rewrite H. reflexivity. Qed.

(** What [emit] returns, taken apart step by step. *)
Lemma emit_inversion (env : Env) (h : Handler) (r r' : LogRecord) (w w' : RichLog) :
  RichLogHandler.emit env h r w = Ok (r', w') ->
  exists args' m text t,
    RichLogHandler.escape_args (args r) = Ok args'
    /\ msg r = PyStr m
    /\ Handler_format (formatTime env) h
         (set_msg (set_args r args') (PyStr (Rich.escape m))) = Ok (r', text)
    /\ RichLogHandler.render_message h r' text = Ok t
    /\ w' = write w (RichLogHandler.render h r' t).
Proof.
  unfold RichLogHandler.emit. intros H.
  destruct (RichLogHandler.escape_args (args r)) as [args'|e] eqn:Ha; [|discriminate H].
  cbn [bind] in H.
  change (msg (set_args r args')) with (msg r) in H.
  destruct (msg r) as [m| | | |] eqn:Hm; try discriminate H.
  cbn [RichLogHandler.markup_escape bind] in H.
  destruct (Handler_format (formatTime env) h _) as [[r1 text]|e] eqn:Hf;
    [|discriminate H].
  cbn [bind] in H.
  destruct (RichLogHandler.render_message h r1 text) as [t|e] eqn:Ht; [|discriminate H].
  cbn [bind] in H. injection H as <- <-.
  exists args', m, text, t. repeat split; assumption || reflexivity.
Qed.

Lemma formatMessage_cache_exc_text (f : Formatter) (r : LogRecord) :
  formatMessage f (cache_exc_text r) = formatMessage f r.
Proof.
  unfold cache_exc_text. destruct (exc_info r); [|reflexivity].
  destruct (nonempty (exc_text r)); reflexivity.
Qed.

Lemma cache_exc_text_fields (r : LogRecord) :
  name (cache_exc_text r) = name r /\ levelno (cache_exc_text r) = levelno r
  /\ msg (cache_exc_text r) = msg r /\ args (cache_exc_text r) = args r
  /\ created (cache_exc_text r) = created r /\ funcName (cache_exc_text r) = funcName r
  /\ callstack (cache_exc_text r) = callstack r /\ posixTID (cache_exc_text r) = posixTID r
  /\ message (cache_exc_text r) = message r /\ asctime (cache_exc_text r) = asctime r
  /\ exc_info (cache_exc_text r) = exc_info r
  /\ stack_info (cache_exc_text r) = stack_info r.
Proof.
  unfold cache_exc_text. destruct (exc_info r) eqn:He; [|rewrite He; repeat split].
  destruct (nonempty (exc_text r)); [rewrite He|]; repeat split; try reflexivity; exact He.
Qed.

Lemma cache_exc_text_none (r : LogRecord) :
  exc_info r = None -> cache_exc_text r = r.
Proof. unfold cache_exc_text. intros ->. reflexivity. Qed.

Lemma with_exception_text_none (r : LogRecord) (s : string) :
  nonempty (exc_text r) = false -> nonempty (stack_info r) = false ->
  with_exception_text r s = s.
Proof. unfold with_exception_text. intros -> ->. reflexivity. Qed.

Lemma Formatter_format_fields (ft : option string -> Z -> string)
      (f : Formatter) (r r' : LogRecord) (text : string) :
  Formatter_format ft f r = Ok (r', text) ->
  name r' = name r /\ levelno r' = levelno r /\ msg r' = msg r /\ args r' = args r
  /\ created r' = created r /\ funcName r' = funcName r
  /\ callstack r' = callstack r /\ posixTID r' = posixTID r
  /\ (exists m, getMessage r = Ok m /\ message r' = Some m)
  /\ (exists line, formatMessage f r' = Ok line /\ text = with_exception_text r' line)
  /\ exc_info r' = exc_info r /\ stack_info r' = stack_info r
  /\ (exc_info r = None -> exc_text r' = exc_text r).
Proof.
  unfold Formatter_format. intros H.
  destruct (getMessage r) as [m|e] eqn:Hm; [|discriminate H].
  cbn [bind] in H.
  match type of H with
  | context [formatMessage f ?x] =>
      set (r1 := x) in *;
      destruct (formatMessage f r1) as [s|e] eqn:Hs; [|discriminate H]
  end.
  cbn [bind] in H. injection H as <- <-.
  destruct (cache_exc_text_fields r1)
    as (Hn & Hl & Hmsg & Ha & Hc & Hfn & Hcs & Htid & Hme & _ & Hei & Hsi).
  assert (Hr1 : name r1 = name r /\ levelno r1 = levelno r /\ msg r1 = msg r
                /\ args r1 = args r /\ created r1 = created r
                /\ funcName r1 = funcName r /\ callstack r1 = callstack r
                /\ posixTID r1 = posixTID r /\ message r1 = Some m
                /\ exc_info r1 = exc_info r /\ stack_info r1 = stack_info r).
  { subst r1. destruct (usesTime f); repeat split; reflexivity. }
  destruct Hr1 as (Hn1 & Hl1 & Hmsg1 & Ha1 & Hc1 & Hfn1 & Hcs1 & Htid1 & Hme1 & Hei1 & Hsi1).
  repeat split; try congruence.
  - exists m. split; [reflexivity | congruence].
  - exists s. split; [|reflexivity].
    rewrite formatMessage_cache_exc_text. exact Hs.
  - intros Hnone. rewrite cache_exc_text_none by congruence.
    subst r1. destruct (usesTime f); reflexivity.
Qed.

Lemma Handler_format_fields (ft : option string -> Z -> string)
      (h : Handler) (r r' : LogRecord) (text : string) :
  Handler_format ft h r = Ok (r', text) ->
  name r' = name r /\ levelno r' = levelno r /\ msg r' = msg r /\ args r' = args r
  /\ created r' = created r /\ funcName r' = funcName r
  /\ callstack r' = callstack r /\ posixTID r' = posixTID r
  /\ (exists m, getMessage r = Ok m /\ message r' = Some m).
Proof.
  unfold Handler_format. intros H.
  destruct (formatter h) as [f|];
    apply Formatter_format_fields in H;
    repeat match goal with H : _ /\ _ |- _ => destruct H end;
    repeat split; assumption.
Qed.

(** C10. When [record.args] is falsy ([None], the empty tuple, an empty
    mapping), the argument-escaping step of [emit] returns it as it is; it
    does not iterate over it (iterating over [None] would raise), so the
    step raises nothing on a record without arguments, and the record that
    [emit] leaves has the same [args]. *)
Theorem escape_args_keeps_falsy (a : PyArgs) :
  truthy a = false ->
  RichLogHandler.escape_args a = Ok a
  /\ (a = ArgsNone ->
      returned (iter a) = false /\ returned (RichLogHandler.escape_args a) = true)
  /\ (forall env h r r' w w',
        args r = a -> RichLogHandler.emit env h r w = Ok (r', w') -> args r' = a).
Proof.
  intros Hfalsy. split; [apply escape_args_falsy; exact Hfalsy|]. split.
  - intros ->. split; reflexivity.
  - intros env h r r' w w' Ha Hemit.
    apply emit_inversion in Hemit.
    destruct Hemit as (args' & m & text & t & Hargs & Hm & Hf & _ & _).
    rewrite Ha, (escape_args_falsy a Hfalsy) in Hargs. injection Hargs as <-.
    apply Handler_format_fields in Hf.
    destruct Hf as (_ & _ & _ & Hargs' & _). rewrite Hargs'. reflexivity.
Qed.

Lemma escape_args_keeps_falsy_witness :
  RichLogHandler.escape_args ArgsNone = Ok ArgsNone.
Proof.
  exact (proj1 (escape_args_keeps_falsy ArgsNone eq_refl)).
Defined.

(* ------------------------------------------------------------------ *)
(** ** The format string and the rendered line *)

Lemma log_format_fields (a : App) :
  format_fields (log_format a)
  = (["asctime"]
     ++ (if _logger_show_time a then ["asctime"] else [])
     ++ (if _logger_show_tid a then ["posixTID"] else [])
     ++ (if _logger_show_name a then ["name"] else [])
     ++ (if _logger_show_funcname a then ["funcName"] else [])
     ++ (if _logger_show_callstack a then ["callstack"] else [])
     ++ ["message"])%list.
Proof.
  unfold log_format.
  destruct (_logger_show_time a), (_logger_show_tid a), (_logger_show_name a),
    (_logger_show_funcname a), (_logger_show_callstack a); vm_compute; reflexivity.
Qed.

Lemma log_format_parses (a : App) :
  exists segs, parse (log_format a) = Ok segs /\ keyed_strings segs = true.
Proof.
  unfold log_format.
  destruct (_logger_show_time a), (_logger_show_tid a), (_logger_show_name a),
    (_logger_show_funcname a), (_logger_show_callstack a);
    eexists; split; vm_compute; reflexivity.
Qed.

Lemma format_mapping_missing (segs : list Segment) (lookup : string -> option PyVal)
      (k : string) :
  keyed_strings segs = true -> In k (keys_of segs) -> lookup k = None ->
  exists k', format_mapping segs lookup = Raise (KeyError k').
Proof.
  induction segs as [|seg segs IH]; intros Hks Hin Hk; [contradiction|].
  cbn [keyed_strings forallb] in Hks. apply andb_prop in Hks as [Hseg Hks].
  destruct seg as [c|[key|] lj width conv]; [| |discriminate Hseg].
  - cbn [keys_of] in Hin. cbn [format_mapping].
    destruct (IH Hks Hin Hk) as [k' ->]. exists k'. reflexivity.
  - cbn [format_mapping]. destruct (lookup key) as [v|] eqn:Hl.
    + unfold convert. rewrite Hseg. cbn [bind].
      cbn [keys_of] in Hin. destruct Hin as [->|Hin]; [congruence|].
      destruct (IH Hks Hin Hk) as [k' ->]. exists k'. reflexivity.
    + exists key. reflexivity.
Qed.


Lemma match_at_plain (c : ascii) (s : string) :
  Ascii.eqb c "[" = false -> Ascii.eqb c "\" = false ->
  Rich.match_at (String c s) = None.
Proof.
  intros Hb Hs. unfold Rich.match_at. cbn [Rich.backslashes]. rewrite Hs.
  cbn [Rich.tag_at]. rewrite Hb. reflexivity.
Qed.

Lemma live_tags_plain_app (p s : string) :
  plain p = true -> Rich.live_tags (p ++ s) = Rich.live_tags s.
Proof.
  unfold Rich.live_tags. induction p as [|c p IH]; intros Hp; [reflexivity|].
  cbn [plain] in Hp. apply andb_prop in Hp. destruct Hp as [Hc Hp].
  apply andb_prop in Hc. destruct Hc as [Hb Hs].
  apply negb_true_iff in Hb. apply negb_true_iff in Hs.
  change (String c p ++ s) with (String c (p ++ s)).
  cbn [Rich.scan]. rewrite (match_at_plain c (p ++ s) Hb Hs).
  cbn [Rich.live]. exact (IH Hp).
Qed.


Lemma from_markup_plain_prefix (p s : string) (t : Text) :
  plain p = true -> from_markup s = Ok t ->
  from_markup (p ++ s) = Ok (FromMarkup (p ++ s)).
Proof.
  unfold from_markup. intros Hp Hs. rewrite (live_tags_plain_app p s Hp).
  destruct (balance (Rich.live_tags s) []); [reflexivity | discriminate Hs].
Qed.

Lemma log_record_sole_handler (env : Env) (w : World) (h : Handler) (r : LogRecord) :
  root_handlers (logging w) = [h] ->
  _richlog (app (log_record env w r))
  = if isEnabledFor env (logging w) r && (level h <=? levelno r)%Z
    then match Handler_handle (run_filter env) (RichLogHandler.emit env) h r
                              (_richlog (app w)) with
         | Ok (_, log') => log'
         | Raise _ => _richlog (app w)
         end
    else _richlog (app w).
Proof.
  intros Hh. unfold log_record. rewrite Hh.
  destruct (isEnabledFor env (logging w) r); [|reflexivity].
  cbn [andb callHandlers set_app app set_richlog _richlog].
  destruct (level h <=? levelno r)%Z; [|reflexivity].
  destruct (Handler_handle _ _ h r _) as [[r' log']|e]; reflexivity.
Qed.

Lemma emit_hello (env : Env) (r : LogRecord) (log : RichLog) :
  msg r = PyStr "hello" -> args r = ArgsTuple [] ->
  exc_info r = None -> exc_text r = None -> stack_info r = None ->
  plain (formatTime env (Some "%Y-%m-%d %H:%M:%S") (created r)) = true ->
  let asctime := formatTime env (Some "%Y-%m-%d %H:%M:%S") (created r) in
  let text := "│ " ++ asctime ++ "│ [bold white]hello[/]" in
  let r' := set_asctime (set_message r "hello") asctime in
  RichLogHandler.emit env (mounted_handler (init false false false false false false))
                      r log
  = Ok (r', write log (LogRow r' (Some (pad true 8 (levelname r))) (FromMarkup text))).
Proof.
  intros Hmsg Hargs Hei Het Hsi Hplain asctime text r'.
  assert (Hmarkup : from_markup text = Ok (FromMarkup text)).
  { subst text. apply (from_markup_plain_prefix "│ " _ (FromMarkup (asctime ++ "│ [bold white]hello[/]")));
      [reflexivity|].
    apply (from_markup_plain_prefix asctime _ (FromMarkup "│ [bold white]hello[/]"));
      [exact Hplain | reflexivity]. }
  destruct r as [nm lv m a cr fn me at' cs tid ei et si].
  cbn in Hmsg, Hargs, Hei, Het, Hsi. subst m a ei et si.
  unfold RichLogHandler.emit.
  cbn [args msg set_args set_msg RichLogHandler.escape_args truthy bind
       RichLogHandler.markup_escape].
  change (Rich.escape "hello") with "hello".
  unfold set_msg, set_args.
  cbn [name levelno msg args created funcName message Logging.asctime
       callstack posixTID exc_info exc_text stack_info] in *.
  assert (Hformat :
            Handler_format (formatTime env)
              (mounted_handler (init false false false false false false))
              (mkLogRecord nm lv (PyStr "hello") (ArgsTuple []) cr fn me at' cs tid
                           None None None)
            = Ok (r', text)).
  { subst r' text asctime. vm_compute. reflexivity. }
  rewrite Hformat. cbn [bind].
  unfold RichLogHandler.render_message. cbn [markup mounted_handler].
  rewrite Hmarkup. reflexivity.
Qed.

Lemma filters_keep_hello (env : Env) (r : LogRecord) :
  msg r = PyStr "hello" -> args r = ArgsTuple [] ->
  let r' := through_filters env [markup_escape_filter; logger_name_filter] r in
  r' = set_name r (display_name env (name r)).
Proof.
  intros Hmsg Hargs. destruct r as [nm lv m a cr fn me at' cs tid ei et si].
  cbn in Hmsg, Hargs. subst m a. reflexivity.
Qed.

Lemma append_nil (s : string) : s ++ "" = s.
Proof. induction s as [|c s IH]; [reflexivity | cbn; rewrite IH; reflexivity]. Qed.

Lemma append_app (a b c : string) : (a ++ b) ++ c = a ++ (b ++ c).
Proof. induction a as [|x a IH]; cbn; [reflexivity | rewrite IH; reflexivity]. Qed.

Lemma plain_append (a b : string) : plain (a ++ b) = plain a && plain b.
Proof.
  induction a as [|c a IH]; [reflexivity|].
  cbn [append plain]. rewrite IH, andb_assoc. reflexivity.
Qed.

Lemma pieces_plain_prefix (p s pending : string) :
  plain p = true ->
  Rich.pieces pending (Rich.scan 0 (p ++ s)) = Rich.pieces (pending ++ p) (Rich.scan 0 s).
Proof.
  revert pending. induction p as [|c p IH]; intros pending Hp.
  - rewrite append_nil. reflexivity.
  - cbn [plain] in Hp. apply andb_prop in Hp. destruct Hp as [Hc Hp].
    apply andb_prop in Hc. destruct Hc as [Hb Hs].
    apply negb_true_iff in Hb. apply negb_true_iff in Hs.
    change (String c p ++ s) with (String c (p ++ s)).
    cbn [Rich.scan]. rewrite (match_at_plain c (p ++ s) Hb Hs).
    cbn [Rich.pieces]. rewrite (IH _ Hp), append_app. reflexivity.
Qed.

Lemma unescape_brackets_plain (p : string) :
  plain p = true -> Rich.unescape_brackets p = p.
Proof.
  induction p as [|c p IH]; intros Hp; [reflexivity|].
  cbn [plain] in Hp. apply andb_prop in Hp. destruct Hp as [Hc Hp].
  apply andb_prop in Hc. destruct Hc as [_ Hs]. apply negb_true_iff in Hs.
  cbn [Rich.unescape_brackets]. destruct p as [|d p]; [reflexivity|].
  rewrite Hs. cbn [andb]. rewrite (IH Hp). reflexivity.
Qed.

Lemma has_bracket_append (a b : string) :
  Rich.has_bracket (a ++ b) = Rich.has_bracket a || Rich.has_bracket b.
Proof.
  induction a as [|c a IH]; [reflexivity|].
  cbn [append Rich.has_bracket]. rewrite IH, orb_assoc. reflexivity.
Qed.

Lemma emoji_replace_fixed (table : string -> string) (s : string) :
  table s = s -> Rich.emoji_replace table s = s.
Proof. unfold Rich.emoji_replace. intros ->. destruct (2 <=? Rich.colons s)%nat; reflexivity. Qed.

(** The characters of the line that the format of an application without
    toggles gives for the message [hello]. *)
Lemma render_plain_hello (table : string -> string) (ts : string) :
  plain ts = true ->
  table ("│ " ++ ts ++ "│ ") = "│ " ++ ts ++ "│ " ->
  Rich.render_plain table ("│ " ++ ts ++ "│ [bold white]hello[/]")
  = "│ " ++ ts ++ "│ hello".
Proof.
  intros Hts Htable. unfold Rich.render_plain.
  rewrite has_bracket_append, has_bracket_append.
  replace (Rich.has_bracket "│ [bold white]hello[/]") with true by reflexivity.
  rewrite !orb_true_r.
  rewrite (pieces_plain_prefix "│ " _ "" eq_refl).
  rewrite (pieces_plain_prefix ts _ _ Hts).
  replace (Rich.scan 0 "│ [bold white]hello[/]")
    with [Rich.Chr "226"; Rich.Chr "148"; Rich.Chr "130"; Rich.Chr " ";
          Rich.Tag 0 "bold white";
          Rich.Chr "h"; Rich.Chr "e"; Rich.Chr "l"; Rich.Chr "l"; Rich.Chr "o";
          Rich.Tag 0 "/"]
    by (vm_compute; reflexivity).
  cbn [Rich.pieces]. rewrite !append_app. cbn [append].
  cbn [Rich.flush Nat.div2 Rich.repeat_backslash Nat.even List.app map String.concat].
  change (String "226" (String "148" (String "130" (String " " (ts ++ String "226" (String "148" (String "130" " ")))))))
    with ("│ " ++ ts ++ "│ ").
  rewrite unescape_brackets_plain
    by (rewrite plain_append, plain_append, Hts; reflexivity).
  rewrite (emoji_replace_fixed table _ Htable).
  change (Rich.emoji_replace table (Rich.unescape_brackets "hello")) with "hello".
  cbn [append]. rewrite !append_app. reflexivity.
Qed.

(** C6, where the code departs from it.  An application constructed with
    every toggle off (the level toggle too) is mounted and one INFO record
    with the message [hello] and no arguments is logged (its logger lets
    INFO through).  The format string names the time stamp and the message
    and no other field, but the line written to the log widget has two
    cells: rich's level cell, which reads [INFO], and the message cell,
    which shows the time stamp and [hello].  The line shows the severity
    besides the time stamp and the message. *)
Theorem all_toggles_off_shows_level
        (env : Env) (cleanup : option (World -> World)) (reg : Registry) (r : LogRecord) :
  levelno r = INFO -> msg r = PyStr "hello" -> args r = ArgsTuple [] ->
  exc_info r = None -> exc_text r = None -> stack_info r = None ->
  (Z.of_N (threshold env [Shown (LevelNo INFO)] (LevelNo WARNING) (name r)) <= INFO)%Z ->
  plain (formatTime env (Some "%Y-%m-%d %H:%M:%S") (created r)) = true ->
  emoji_table env ("│ " ++ formatTime env (Some "%Y-%m-%d %H:%M:%S") (created r) ++ "│ ")
  = "│ " ++ formatTime env (Some "%Y-%m-%d %H:%M:%S") (created r) ++ "│ " ->
  let w := on_mount (mkHooks None cleanup)
                    (mkWorld (init false false false false false false) reg) in
  let asctime := formatTime env (Some "%Y-%m-%d %H:%M:%S") (created r) in
  format_fields (log_format (app w)) = ["asctime"; "message"]
  /\ map (cells (emoji_table env)) (lines (_richlog (app (log_record env w r))))
     = [["INFO    "; "│ " ++ asctime ++ "│ hello"]]
  /\ map level_cell (lines (_richlog (app (log_record env w r)))) = [Some "INFO    "].
Proof.
  intros Hlevel Hmsg Hargs Hei Het Hsi Hthreshold Hplain Hemoji w asctime.
  split; [reflexivity|].
  rewrite (log_record_sole_handler env w
             (mounted_handler (init false false false false false false)) r)
    by (apply (on_mount_root_handlers (mkHooks None cleanup)),
              keeps_handlers_no_initialize).
  assert (Henabled : isEnabledFor env (logging w) r = true).
  { unfold isEnabledFor. rewrite Hlevel. apply Z.leb_le. exact Hthreshold. }
  rewrite Henabled, Hlevel. cbn [andb mounted_handler level].
  change (NOTSET <=? INFO)%Z with true. cbn iota.
  unfold Handler_handle. rewrite through_filters_accepts.
  change (filters _) with [markup_escape_filter; logger_name_filter].
  rewrite (filters_keep_hello env r Hmsg Hargs).
  rewrite emit_hello by assumption.
  assert (Hlog : lines (_richlog (app w)) = []).
  { subst w. rewrite on_mount_before_hook. reflexivity. }
  cbn [lines write]. rewrite Hlog.
  cbn [List.app map cells level_cell message_renderable plain_of].
  unfold levelname, set_name. cbn [levelno created]. rewrite Hlevel.
  change (pad true 8 (getLevelName INFO)) with "INFO    ".
  rewrite (render_plain_hello (emoji_table env) _ Hplain Hemoji).
  split; reflexivity.
Qed.

Lemma all_toggles_off_shows_level_witness :
  map (cells (emoji_table sample_env))
      (lines (_richlog (app (log_record sample_env
         (on_mount (mkHooks None None)
            (mkWorld (init false false false false false false) sample_registry))
         (sample_record (PyStr "hello") (ArgsTuple []))))))
  = [["INFO    "; "│ 2024-05-17 09:30:00│ hello"]].
Proof.
  exact (proj1 (proj2 (all_toggles_off_shows_level sample_env None sample_registry
                  (sample_record (PyStr "hello") (ArgsTuple []))
                  eq_refl eq_refl eq_refl eq_refl eq_refl eq_refl
                  (fun H : (20 ?= INFO)%Z = Gt => ltac:(discriminate H))
                  eq_refl eq_refl))).
Defined.

(** C2, at the input where the code departs from it: with the time toggle
    off (and the other toggles at any value) the assembled format string
    still starts with the time stamp field and names it once; with the time
    toggle on it names it twice. *)
Theorem log_format_time_toggle_off
        (show_level show_name show_callstack show_funcname show_tid : bool) :
  let off := log_format (init show_level false show_name show_callstack
                              show_funcname show_tid) in
  let on := log_format (init show_level true show_name show_callstack
                             show_funcname show_tid) in
  String.prefix "│ %(asctime)s" off = true
  /\ count_occ string_dec (format_fields off) "asctime" = 1%nat
  /\ count_occ string_dec (format_fields on) "asctime" = 2%nat.
Proof.
  destruct show_level, show_name, show_callstack, show_funcname, show_tid;
    vm_compute; repeat split; reflexivity.
Qed.

(* ------------------------------------------------------------------ *)
(** ** [rich.markup.escape] leaves no tag in force *)

Module EscapeFacts.
Import Rich.

Lemma append_assoc (a b c : string) : (a ++ b) ++ c = a ++ (b ++ c).
Proof. induction a as [|x a IH]; cbn; [reflexivity | rewrite IH; reflexivity]. Qed.

Lemma length_append (a b : string) :
  String.length (a ++ b) = (String.length a + String.length b)%nat.
Proof. induction a as [|x a IH]; cbn; [reflexivity | rewrite IH; reflexivity]. Qed.

Lemma tag_body_Some (s b : string) :
  tag_body s = Some b ->
  exists rest, s = b ++ String "]" rest
               /\ forall rest', tag_body (b ++ String "]" rest') = Some b.
Proof.
  revert b. induction s as [|c r IH]; intros b H; [discriminate H|].
  cbn [tag_body] in H.
  destruct (Ascii.eqb c "]") eqn:Hc.
  - injection H as <-. apply Ascii.eqb_eq in Hc. subst c.
    exists r. split; reflexivity.
  - destruct (Ascii.eqb c "[") eqn:Ho; [discriminate H|].
    destruct (tag_body r) as [b'|] eqn:Hr; [|discriminate H].
    injection H as <-.
    destruct (IH b' eq_refl) as (rest & -> & Hconv).
    exists rest. split; [reflexivity|].
    intros rest'. cbn [append tag_body]. rewrite Hc, Ho, Hconv. reflexivity.
Qed.

Lemma tag_at_Some (s tag : string) :
  tag_at s = Some tag ->
  exists rest, s = bracket tag rest
               /\ forall rest', tag_at (bracket tag rest') = Some tag.
Proof.
  unfold tag_at, bracket. intros H.
  destruct s as [|b t]; [discriminate H|].
  destruct (Ascii.eqb b "[") eqn:Hb; [|discriminate H].
  apply Ascii.eqb_eq in Hb. subst b.
  destruct t as [|c r]; [discriminate H|].
  destruct (is_tag_start c) eqn:Hc; [|discriminate H].
  destruct (tag_body r) as [body|] eqn:Hr; [|discriminate H].
  injection H as <-.
  destruct (tag_body_Some r body Hr) as (rest & -> & Hconv).
  exists rest. split; [reflexivity|].
  intros rest'. cbn [append]. rewrite Hc, Hconv. reflexivity.
Qed.

Lemma backslashes_spec (s : string) :
  s = repeat_backslash (fst (backslashes s)) ++ snd (backslashes s)
  /\ starts_with_backslash (snd (backslashes s)) = false.
Proof.
  induction s as [|c r IH]; [split; reflexivity|].
  cbn [backslashes]. destruct (Ascii.eqb c "\") eqn:Hc.
  - apply Ascii.eqb_eq in Hc. subst c.
    destruct (backslashes r) as [k t]. cbn [fst snd] in *.
    destruct IH as [IH1 IH2]. split; [|exact IH2].
    cbn [repeat_backslash append]. rewrite <- IH1. reflexivity.
  - cbn [fst snd repeat_backslash append starts_with_backslash].
    split; [reflexivity | exact Hc].
Qed.

Lemma backslashes_run (n : nat) (t : string) :
  starts_with_backslash t = false ->
  backslashes (repeat_backslash n ++ t) = (n, t).
Proof.
  intros Ht. induction n as [|n IH].
  - cbn [repeat_backslash append]. destruct t as [|c r]; [reflexivity|].
    cbn [backslashes]. cbn in Ht. rewrite Ht. reflexivity.
  - cbn [repeat_backslash append backslashes]. cbn. rewrite IH. reflexivity.
Qed.

Lemma match_at_Some (s : string) (n : nat) (tag : string) :
  match_at s = Some (n, tag) ->
  exists rest, s = repeat_backslash n ++ bracket tag rest
               /\ forall m rest',
                    match_at (repeat_backslash m ++ bracket tag rest') = Some (m, tag).
Proof.
  unfold match_at. intros H.
  destruct (backslashes_spec s) as [Hs _].
  destruct (backslashes s) as [k t]. cbn [fst snd] in Hs.
  destruct (tag_at t) as [tag'|] eqn:Ht; [|discriminate H].
  injection H as <- <-.
  destruct (tag_at_Some t tag' Ht) as (rest & -> & Hconv).
  exists rest. split; [exact Hs|].
  intros m rest'. rewrite backslashes_run by reflexivity.
  rewrite Hconv. reflexivity.
Qed.

Lemma scan_skip (p s : string) (k : nat) :
  scan (String.length p + k) (p ++ s) = scan k s.
Proof.
  induction p as [|c p IH]; [reflexivity|].
  cbn [String.length append Nat.add scan]. exact IH.
Qed.

Lemma scan_match (n : nat) (tag rest : string) :
  (forall m rest', match_at (repeat_backslash m ++ bracket tag rest') = Some (m, tag)) ->
  scan 0 (repeat_backslash n ++ bracket tag rest) = Tag n tag :: scan 0 rest.
Proof.
  intros Hm.
  assert (H : forall c r, String c r = repeat_backslash n ++ bracket tag rest ->
                          scan 0 (String c r) = Tag n tag :: scan 0 rest).
  { intros c r Heq. cbn [scan]. rewrite Heq, Hm. f_equal.
    assert (Hr : exists p, r = p ++ rest /\ String.length p = (n + String.length tag + 1)%nat).
    { destruct n as [|n].
      - cbn [repeat_backslash append] in Heq. unfold bracket in Heq.
        injection Heq as _ ->. exists (tag ++ "]"). split.
        + rewrite append_assoc. reflexivity.
        + rewrite length_append. cbn. lia.
      - cbn [repeat_backslash append] in Heq. injection Heq as _ ->.
        exists (repeat_backslash n ++ String "[" (tag ++ "]")). split.
        + rewrite append_assoc. cbn [append]. rewrite append_assoc. reflexivity.
        + rewrite length_append. cbn [String.length]. rewrite length_append.
          cbn [String.length].
          assert (Hb : forall j, String.length (repeat_backslash j) = j)
            by (induction j; cbn; congruence).
          rewrite Hb. lia. }
    destruct Hr as (p & -> & Hlen).
    rewrite <- Hlen. rewrite <- (Nat.add_0_r (String.length p)). apply scan_skip. }
  destruct n; cbn [repeat_backslash append]; unfold bracket; apply H;
    reflexivity.
Qed.

Lemma esc_no_match (c : ascii) (r : string) :
  match_at (String c r) = None -> esc 0 (String c r) = String c (esc 0 r).
Proof. unfold esc. cbn [scan]. intros ->. reflexivity. Qed.

Lemma esc_match (n : nat) (tag rest : string) :
  (forall m rest', match_at (repeat_backslash m ++ bracket tag rest') = Some (m, tag)) ->
  esc 0 (repeat_backslash n ++ bracket tag rest)
  = repeat_backslash (n + n + 1) ++ bracket tag (esc 0 rest).
Proof.
  intros Hm. unfold esc. rewrite (scan_match n tag rest Hm).
  cbn [escape_tokens]. unfold bracket. cbn [append]. reflexivity.
Qed.

Lemma esc_head (c : ascii) (r : string) :
  (exists r', esc 0 (String c r) = String c r')
  \/ (exists r', esc 0 (String c r) = String "\" r').
Proof.
  destruct (match_at (String c r)) as [[n tag]|] eqn:Hm.
  - right. destruct (match_at_Some _ n tag Hm) as (rest & Hs & Hconv).
    rewrite Hs, (esc_match n tag rest Hconv).
    replace (n + n + 1)%nat with (S (n + n)) by lia.
    cbn [repeat_backslash append]. eexists. reflexivity.
  - left. rewrite (esc_no_match c r Hm). eexists. reflexivity.
Qed.

Lemma tag_body_run (k : nat) (tag rest : string) :
  tag_body (repeat_backslash k ++ bracket tag rest) = None.
Proof.
  induction k as [|k IH]; [reflexivity|].
  cbn [repeat_backslash append tag_body]. cbn. rewrite IH. reflexivity.
Qed.

Lemma tag_body_esc (r : string) :
  tag_body r = None -> tag_body (esc 0 r) = None.
Proof.
  induction r as [|c r IH]; intros H; [reflexivity|].
  destruct (match_at (String c r)) as [[n tag]|] eqn:Hm.
  - destruct (match_at_Some _ n tag Hm) as (rest & Hs & Hconv).
    rewrite Hs, (esc_match n tag rest Hconv). apply tag_body_run.
  - rewrite (esc_no_match c r Hm).
    cbn [tag_body] in *.
    destruct (Ascii.eqb c "]"); [discriminate H|].
    destruct (Ascii.eqb c "["); [reflexivity|].
    destruct (tag_body r); [discriminate H|].
    rewrite IH; reflexivity.
Qed.

Lemma match_at_plain_head (c : ascii) (r : string) :
  Ascii.eqb c "\" = false -> tag_at (String c r) = None ->
  match_at (String c r) = None.
Proof.
  intros Hc Ht. unfold match_at. cbn [backslashes]. rewrite Hc, Ht. reflexivity.
Qed.

Lemma is_tag_start_plain (c : ascii) :
  is_tag_start c = true -> Ascii.eqb c "\" = false /\ Ascii.eqb c "[" = false.
Proof.
  intros H. split.
  - destruct (Ascii.eqb c "\") eqn:E; [|reflexivity].
    apply Ascii.eqb_eq in E. subst c. discriminate H.
  - destruct (Ascii.eqb c "[") eqn:E; [|reflexivity].
    apply Ascii.eqb_eq in E. subst c. discriminate H.
Qed.

Lemma tag_at_esc (t : string) :
  starts_with_backslash t = false -> tag_at t = None -> tag_at (esc 0 t) = None.
Proof.
  intros Hb Ht. destruct t as [|b t1]; [reflexivity|].
  cbn [starts_with_backslash] in Hb.
  assert (Hm : match_at (String b t1) = None)
    by (apply match_at_plain_head; assumption).
  rewrite (esc_no_match b t1 Hm).
  cbn [tag_at] in *.
  destruct (Ascii.eqb b "["); [|reflexivity].
  destruct t1 as [|c r]; [reflexivity|].
  destruct (is_tag_start c) eqn:Hc.
  - destruct (is_tag_start_plain c Hc) as [Hc1 Hc2].
    assert (Hm1 : match_at (String c r) = None).
    { apply match_at_plain_head; [exact Hc1|]. cbn [tag_at]. rewrite Hc2. reflexivity. }
    rewrite (esc_no_match c r Hm1), Hc.
    destruct (tag_body r) eqn:Hr; [discriminate Ht|].
    rewrite (tag_body_esc r Hr). reflexivity.
  - destruct (esc_head c r) as [[r' ->]|[r' ->]]; [rewrite Hc|]; reflexivity.
Qed.

Lemma esc_run (r : string) :
  tag_at (snd (backslashes r)) = None ->
  esc 0 r = repeat_backslash (fst (backslashes r)) ++ esc 0 (snd (backslashes r)).
Proof.
  induction r as [|c r IH]; intros H; [reflexivity|].
  cbn [backslashes] in *.
  destruct (Ascii.eqb c "\") eqn:Hc.
  - apply Ascii.eqb_eq in Hc. subst c.
    assert (Hm : match_at (String "\" r) = None).
    { unfold match_at. cbn [backslashes]. cbn.
      destruct (backslashes r) as [k t]. cbn [snd] in H. rewrite H. reflexivity. }
    rewrite (esc_no_match _ r Hm).
    destruct (backslashes r) as [k t]. cbn [fst snd] in *.
    cbn [repeat_backslash append]. rewrite IH by exact H. reflexivity.
  - reflexivity.
Qed.

Lemma esc_not_backslash (t : string) :
  starts_with_backslash t = false -> tag_at t = None ->
  starts_with_backslash (esc 0 t) = false.
Proof.
  intros Hb Ht. destruct t as [|b t1]; [reflexivity|].
  cbn [starts_with_backslash] in Hb.
  rewrite esc_no_match; [exact Hb|].
  apply match_at_plain_head; assumption.
Qed.

Lemma match_at_esc (c : ascii) (r : string) :
  match_at (String c r) = None -> match_at (esc 0 (String c r)) = None.
Proof.
  intros Hm.
  destruct (backslashes_spec (String c r)) as [Hs Hb].
  assert (Ht : tag_at (snd (backslashes (String c r))) = None).
  { unfold match_at in Hm. destruct (backslashes (String c r)) as [k t].
    cbn [snd]. destruct (tag_at t); [discriminate Hm | reflexivity]. }
  rewrite (esc_run _ Ht).
  unfold match_at.
  rewrite backslashes_run by (apply esc_not_backslash; assumption).
  rewrite (tag_at_esc _ Hb Ht). reflexivity.
Qed.

Lemma scan_esc_bounded (n : nat) (s : string) :
  (String.length s <= n)%nat -> scan 0 (esc 0 s) = odd_tokens (scan 0 s).
Proof.
  revert s. induction n as [|n IH]; intros s Hlen.
  - destruct s; [reflexivity | cbn in Hlen; lia].
  - destruct s as [|c r]; [reflexivity|].
    destruct (match_at (String c r)) as [[k tag]|] eqn:Hm.
    + destruct (match_at_Some _ k tag Hm) as (rest & Hs & Hconv).
      rewrite Hs, (esc_match k tag rest Hconv).
      rewrite (scan_match _ tag _ Hconv), (scan_match _ tag _ Hconv).
      cbn [odd_tokens]. f_equal. apply IH.
      rewrite Hs in Hlen. rewrite length_append in Hlen. unfold bracket in Hlen.
      cbn [String.length] in Hlen. rewrite length_append in Hlen.
      cbn [String.length] in Hlen. lia.
    + pose proof (match_at_esc c r Hm) as Hm'.
      rewrite (esc_no_match c r Hm) in *.
      cbn [scan]. rewrite Hm, Hm'. cbn [odd_tokens]. f_equal.
      apply IH. cbn in Hlen. lia.
Qed.

Lemma live_odd_tokens (ts : list Token) : live (odd_tokens ts) = [].
Proof.
  induction ts as [|[c|k tag] ts IH]; cbn [odd_tokens live]; [reflexivity | exact IH |].
  replace (k + k + 1)%nat with (S (2 * k)) by lia.
  rewrite Nat.even_succ, Nat.odd_mul, Nat.odd_2. cbn. exact IH.
Qed.

Lemma tag_body_trailing (r : string) : tag_body (r ++ "\") = tag_body r.
Proof.
  induction r as [|c r IH]; [reflexivity|].
  cbn [append tag_body]. rewrite IH. reflexivity.
Qed.

Lemma tag_at_trailing (t : string) : tag_at (t ++ "\") = tag_at t.
Proof.
  destruct t as [|b t1]; [reflexivity|].
  cbn [append tag_at]. destruct (Ascii.eqb b "["); [|reflexivity].
  destruct t1 as [|c r]; [reflexivity|].
  cbn [append]. rewrite tag_body_trailing. reflexivity.
Qed.

Lemma match_at_trailing (s : string) : match_at (s ++ "\") = match_at s.
Proof.
  unfold match_at. induction s as [|c r IH]; [reflexivity|].
  cbn [append backslashes]. destruct (Ascii.eqb c "\") eqn:Hc.
  - destruct (backslashes (r ++ "\")) as [k t], (backslashes r) as [k' t'].
    destruct (tag_at t) as [tag|], (tag_at t') as [tag'|]; cbn in *;
      congruence.
  - change (String c (r ++ "\")) with (String c r ++ "\").
    rewrite tag_at_trailing. reflexivity.
Qed.

Lemma live_scan_trailing (e : string) (k : nat) :
  live (scan k (e ++ "\")) = live (scan k e).
Proof.
  revert k. induction e as [|c r IH]; intros k.
  - destruct k; reflexivity.
  - cbn [append scan]. destruct k as [|k]; [|apply IH].
    change (String c (r ++ "\")) with (String c r ++ "\").
    rewrite match_at_trailing.
    destruct (match_at (String c r)) as [[n tag]|]; cbn [live];
      rewrite IH; reflexivity.
Qed.

Theorem live_tags_escape (s : string) : live_tags (escape s) = [].
Proof.
  unfold live_tags, escape. fold (esc 0 s).
  assert (H : live (scan 0 (esc 0 s)) = []).
  { rewrite (scan_esc_bounded (String.length s) s (le_n _)). apply live_odd_tokens. }
  destruct (endswith (esc 0 s) "\" && negb (endswith (esc 0 s) "\\"));
    [rewrite live_scan_trailing|]; exact H.
Qed.
End EscapeFacts.

(* ------------------------------------------------------------------ *)
(** ** Tags of the log line *)

Module RenderFacts.
Import Rich EscapeFacts.

Lemma append_empty (s : string) : s ++ "" = s.
Proof. induction s as [|c s IH]; [reflexivity | cbn; rewrite IH; reflexivity]. Qed.

Lemma plain_app (a b : string) : plain (a ++ b) = plain a && plain b.
Proof.
  induction a as [|c a IH]; [reflexivity|].
  cbn [append plain]. rewrite IH, andb_assoc. reflexivity.
Qed.

Lemma plain_spaces (n : nat) : plain (spaces n) = true.
Proof. induction n as [|n IH]; [reflexivity | exact IH]. Qed.

Lemma plain_pad (ljust : bool) (width : nat) (s : string) :
  plain s = true -> plain (pad ljust width s) = true.
Proof.
  intros H. unfold pad. destruct ljust; rewrite plain_app, H, plain_spaces; reflexivity.
Qed.

Lemma plain_string_of_uint (d : Decimal.uint) : plain (NilEmpty.string_of_uint d) = true.
Proof. induction d; cbn; assumption || reflexivity. Qed.

Lemma plain_Z_to_string (z : Z) : plain (Z_to_string z) = true.
Proof.
  unfold Z_to_string, NilZero.string_of_int.
  destruct (Z.to_int z) as [d|d]; unfold NilZero.string_of_uint;
    destruct d; cbn [plain]; try reflexivity; cbn; apply plain_string_of_uint.
Qed.

Lemma live_tags_plain_cons (c : ascii) (s : string) :
  negb (Ascii.eqb c "[") && negb (Ascii.eqb c "\") = true ->
  live_tags (String c s) = live_tags s.
Proof.
  intros H. apply (live_tags_plain_app (String c "") s). cbn [plain].
  rewrite H. reflexivity.
Qed.

Lemma live_tags_bracket (tag rest : string) :
  match_at (bracket tag "") = Some (0, tag) ->
  live_tags (bracket tag rest) = tag :: live_tags rest.
Proof.
  intros H. destruct (match_at_Some _ _ _ H) as (rest0 & _ & Hconv).
  unfold live_tags.
  change (bracket tag rest) with (repeat_backslash 0 ++ bracket tag rest).
  rewrite (scan_match 0 tag rest Hconv). reflexivity.
Qed.

Lemma tag_body_closing (r : string) :
  tag_body r = None -> tag_body (r ++ "[/]") = None.
Proof.
  induction r as [|c r IH]; intros H; [reflexivity|].
  cbn [append tag_body] in *.
  destruct (Ascii.eqb c "]"); [discriminate H|].
  destruct (Ascii.eqb c "["); [reflexivity|].
  destruct (tag_body r); [discriminate H|]. rewrite IH; reflexivity.
Qed.

Lemma tag_at_closing (b : ascii) (t : string) :
  tag_at (String b t) = None -> tag_at (String b t ++ "[/]") = None.
Proof.
  cbn [append tag_at]. intros H.
  destruct (Ascii.eqb b "["); [|reflexivity].
  destruct t as [|c r]; [reflexivity|].
  cbn [append]. destruct (is_tag_start c); [|reflexivity].
  destruct (tag_body r) eqn:Hr; [discriminate H|].
  rewrite (tag_body_closing r Hr). reflexivity.
Qed.

Lemma match_at_closing (s : string) (n : nat) (tag : string) :
  match_at s = None -> match_at (s ++ "[/]") = Some (n, tag) ->
  s = repeat_backslash n /\ tag = "/".
Proof.
  intros Hs Hc.
  destruct (backslashes_spec s) as [Heq Hb].
  unfold match_at in Hs.
  destruct (backslashes s) as [k t]. cbn [fst snd] in *.
  assert (Ht : tag_at t = None) by (destruct (tag_at t); [discriminate Hs | reflexivity]).
  rewrite Heq, append_assoc in Hc. unfold match_at in Hc.
  destruct t as [|b t].
  - rewrite backslashes_run in Hc by reflexivity. cbn in Hc.
    injection Hc as <- <-. split; [|reflexivity].
    rewrite Heq. clear. induction k as [|k IH]; [reflexivity|].
    cbn [repeat_backslash append]. rewrite IH. reflexivity.
  - rewrite backslashes_run in Hc by exact Hb.
    rewrite (tag_at_closing b t Ht) in Hc. discriminate Hc.
Qed.

Lemma live_scan_backslashes (n k : nat) : live (scan k (repeat_backslash n)) = [].
Proof.
  revert k. induction n as [|n IH]; intros k; [destruct k; reflexivity|].
  cbn [repeat_backslash scan]. destruct k as [|k]; [|apply IH].
  assert (Hm : match_at (String "\" (repeat_backslash n)) = None).
  { change (String "\" (repeat_backslash n)) with (repeat_backslash (S n)).
    unfold match_at.
    replace (repeat_backslash (S n)) with (repeat_backslash (S n) ++ "").
    - rewrite backslashes_run by reflexivity. reflexivity.
    - clear. induction (S n) as [|j IHj]; [reflexivity|].
      cbn [repeat_backslash append]. rewrite IHj. reflexivity. }
  rewrite Hm. cbn [live]. apply IH.
Qed.

Lemma length_repeat_backslash (n : nat) : String.length (repeat_backslash n) = n.
Proof. induction n as [|n IH]; [reflexivity | cbn; rewrite IH; reflexivity]. Qed.

Lemma scan_past_end (p : string) (k : nat) :
  (String.length p <= k)%nat -> scan k p = [].
Proof.
  revert k. induction p as [|c p IH]; intros k Hk; [reflexivity|].
  cbn in Hk. destruct k as [|k]; [lia|]. cbn [scan]. apply IH. lia.
Qed.

Lemma live_scan_closing (e : string) (k : nat) :
  (k <= String.length e)%nat ->
  exists closing,
    (closing = [] \/ closing = ["/"])
    /\ live (scan k (e ++ "[/]")) = (live (scan k e) ++ closing)%list.
Proof.
  revert k. induction e as [|c r IH]; intros k Hk.
  - cbn in Hk. assert (k = 0%nat) by lia. subst k.
    exists ["/"]. split; [right; reflexivity | reflexivity].
  - cbn [append scan]. destruct k as [|k]; [|apply IH; cbn in Hk; lia].
    change (String c (r ++ "[/]")) with (String c r ++ "[/]").
    destruct (match_at (String c r)) as [[n tag]|] eqn:Hm.
    + destruct (match_at_Some _ _ _ Hm) as (rest & Heq & Hconv).
      rewrite Heq, append_assoc. unfold bracket at 1. cbn [append].
      rewrite append_assoc. cbn [append]. fold (bracket tag (rest ++ "[/]")).
      rewrite Hconv.
      destruct (IH (n + String.length tag + 1)%nat) as (closing & Hc & Hlive).
      { apply (f_equal String.length) in Heq. cbn [String.length] in Heq.
        rewrite length_append, length_repeat_backslash in Heq. unfold bracket in Heq.
        cbn [String.length] in Heq. rewrite length_append in Heq.
        cbn [String.length] in Heq. lia. }
      exists closing. split; [exact Hc|]. cbn [live].
      destruct (Nat.even n); rewrite Hlive; reflexivity.
    + destruct (match_at (String c r ++ "[/]")) as [[n tag]|] eqn:Hm'.
      * destruct (match_at_closing _ _ _ Hm Hm') as [Heq ->].
        assert (Hr : r = repeat_backslash (n - 1) /\ (1 <= n)%nat).
        { destruct n as [|n]; [discriminate Heq|]. cbn in Heq. injection Heq as _ ->.
          split; [replace (S n - 1)%nat with n by lia; reflexivity | lia]. }
        destruct Hr as [-> Hn].
        exists (if Nat.even n then ["/"] else []).
        split; [destruct (Nat.even n); auto|].
        cbn [live]. rewrite live_scan_backslashes.
        rewrite scan_past_end
          by (rewrite length_append, length_repeat_backslash; cbn; lia).
        destruct (Nat.even n); reflexivity.
      * destruct (IH 0%nat (Nat.le_0_l _)) as (closing & Hc & Hlive).
        exists closing. split; [exact Hc|]. cbn [live]. exact Hlive.
Qed.








Lemma live_tags_closing (e : string) :
  live_tags e = [] ->
  live_tags (e ++ "[/]") = [] \/ live_tags (e ++ "[/]") = ["/"].
Proof.
  unfold live_tags. intros He.
  destruct (live_scan_closing e 0 (Nat.le_0_l _)) as (closing & [->| ->] & H);
    rewrite H, He; [left | right]; reflexivity.
Qed.

End RenderFacts.

Module LineFacts.
Import Rich EscapeFacts RenderFacts.

Lemma emit_line_no_args (env : Env) (h : Handler) (f : Formatter) (r : LogRecord)
      (e : string) :
  formatter h = Some f -> markup h = true -> usesTime f = true ->
  msg r = PyStr e -> truthy (args r) = false ->
  emit_line env h r
  = let r0 := set_asctime
                (set_message (set_msg r (PyStr (escape e))) (escape e))
                (formatTime env (datefmt f) (created r)) in
    s <- formatMessage f r0 ;;
    let r' := cache_exc_text r0 in
    t <- from_markup (with_exception_text r' s) ;;
    Ok (r', RichLogHandler.render h r' t).
Proof.
  intros Hf Hmarkup Htime Hmsg Hargs. unfold emit_line.
  rewrite (escape_args_falsy _ Hargs). cbn [bind].
  change (msg (set_args r (args r))) with (msg r). rewrite Hmsg.
  cbn [RichLogHandler.markup_escape bind].
  unfold Handler_format, Formatter_format. rewrite Hf.
  unfold getMessage.
  change (args (set_msg (set_args r (args r)) (PyStr (escape e)))) with (args r).
  rewrite Hargs. cbn [bind msg set_msg str]. rewrite Htime.
  destruct r as [nm lv ms ar cr fn me at' cs tid ei et si].
  cbn [set_args set_msg set_message set_asctime name levelno msg args created funcName
       message asctime callstack posixTID exc_info exc_text stack_info].
  destruct (formatMessage f _) as [s|err]; [|reflexivity].
  cbn [bind]. unfold RichLogHandler.render_message. rewrite Hmarkup.
  destruct (from_markup _); reflexivity.
Qed.

(** The same for a record that carries no exception and no stack text. *)
Lemma emit_line_plain_record (env : Env) (h : Handler) (f : Formatter) (r : LogRecord)
      (e : string) :
  formatter h = Some f -> markup h = true -> usesTime f = true ->
  msg r = PyStr e -> truthy (args r) = false ->
  exc_info r = None -> exc_text r = None -> stack_info r = None ->
  emit_line env h r
  = let r' := set_asctime
                (set_message (set_msg r (PyStr (escape e))) (escape e))
                (formatTime env (datefmt f) (created r)) in
    s <- formatMessage f r' ;;
    t <- from_markup s ;;
    Ok (r', RichLogHandler.render h r' t).
Proof.
  intros Hf Hmarkup Htime Hmsg Hargs Hei Het Hsi.
  rewrite (emit_line_no_args env h f r e Hf Hmarkup Htime Hmsg Hargs). cbv zeta.
  rewrite cache_exc_text_none by exact Hei.
  destruct (formatMessage f _) as [s|err]; [|reflexivity]. cbn [bind].
  rewrite with_exception_text_none; [reflexivity | |].
  - unfold set_asctime, set_message, set_msg. cbn [exc_text]. rewrite Het. reflexivity.
  - unfold set_asctime, set_message, set_msg. cbn [stack_info]. rewrite Hsi. reflexivity.
Qed.

Lemma formatMessage_line_text (a : App) (r : LogRecord) (ts nm fn message : string)
      (tid : Z) (cs : string) :
  asctime r = Some ts -> Logging.message r = Some message ->
  name r = nm -> funcName r = fn ->
  (_logger_show_tid a = true -> posixTID r = Some tid) ->
  (_logger_show_callstack a = true -> callstack r = Some cs) ->
  formatMessage (mkFormatter (log_format a) (Some "%Y-%m-%d %H:%M:%S")) r
  = Ok (line_text a ts (Z_to_string tid) nm fn cs message).
Proof.
  intros Hts Hm Hnm Hfn Htid Hcs.
  destruct r as [nm' lv ms ar cr fn' me at' cs' tid' ei et si].
  cbn in Hts, Hm, Hnm, Hfn, Htid, Hcs. subst.
  unfold log_format, line_text.
  destruct (_logger_show_time a), (_logger_show_tid a), (_logger_show_name a),
    (_logger_show_funcname a), (_logger_show_callstack a);
    try rewrite (Htid eq_refl); try rewrite (Hcs eq_refl);
    vm_compute; reflexivity.
Qed.


Lemma live_tags_field_block (value rest : string) :
  plain value = true ->
  live_tags (field_block value rest) = "grey53" :: "/" :: live_tags rest.
Proof.
  intros Hv. unfold field_block.
  rewrite live_tags_plain_app by reflexivity.
  rewrite live_tags_bracket by reflexivity.
  rewrite live_tags_plain_app by exact Hv.
  rewrite live_tags_bracket by reflexivity.
  rewrite live_tags_plain_app by reflexivity.
  reflexivity.
Qed.

Lemma live_tags_time_block (ts rest : string) :
  plain ts = true -> live_tags (time_block ts rest) = live_tags rest.
Proof.
  intros Hts. unfold time_block.
  rewrite live_tags_plain_app by reflexivity.
  rewrite live_tags_plain_app by exact Hts.
  rewrite live_tags_plain_app by reflexivity.
  reflexivity.
Qed.

Lemma from_markup_line_text (a : App) (ts tid nm fn cs message : string) :
  plain ts = true -> plain tid = true -> plain nm = true -> plain fn = true ->
  plain cs = true -> live_tags message = [] ->
  from_markup (line_text a ts tid nm fn cs message)
  = Ok (FromMarkup (line_text a ts tid nm fn cs message)).
Proof.
  intros Hts Htid Hnm Hfn Hcs Hmessage.
  unfold from_markup.
  assert (Hb : balance (live_tags (line_text a ts tid nm fn cs message)) [] = Ok tt).
  { unfold line_text, optional.
    rewrite live_tags_plain_app by reflexivity.
    rewrite live_tags_plain_app by exact Hts.
    destruct (_logger_show_time a), (_logger_show_tid a), (_logger_show_name a),
      (_logger_show_funcname a), (_logger_show_callstack a);
      repeat first
        [ rewrite live_tags_time_block by exact Hts
        | rewrite live_tags_field_block by (apply plain_pad; assumption) ];
      rewrite live_tags_plain_app by reflexivity;
      rewrite live_tags_bracket by reflexivity;
      destruct (live_tags_closing message Hmessage) as [-> | ->];
      reflexivity. }
  rewrite Hb. reflexivity.
Qed.

Lemma through_filter_chain (env : Env) (a : App) (r : LogRecord) (m : string) :
  msg r = PyStr m -> truthy (args r) = false ->
  let r' := through_filters env (filter_chain a) r in
  msg r' = PyStr (escape m) /\ truthy (args r') = false
  /\ name r' = display_name env (name r) /\ funcName r' = funcName r
  /\ created r' = created r
  /\ (_logger_show_tid a = true -> exists tid, posixTID r' = Some tid)
  /\ (_logger_show_callstack a = true ->
      callstack r' = Some (callstack_summary env r))
  /\ exc_info r' = exc_info r /\ exc_text r' = exc_text r
  /\ stack_info r' = stack_info r.
Proof.
  intros Hmsg Hargs. destruct r as [nm lv ms ar cr fn me at' cs tid ei et si].
  cbn in Hmsg, Hargs. subst ms. unfold filter_chain.
  destruct ar as [|[|v l]|[|kv l]]; try discriminate Hargs;
    destruct (_logger_show_callstack a), (_logger_show_tid a); cbn;
    repeat split; try (intros; discriminate); intros; eauto.
Qed.

End LineFacts.

(* ------------------------------------------------------------------ *)
(** ** Records reaching the log widget *)

Lemma emit_by_line (env : Env) (h : Handler) (r : LogRecord) (log : RichLog) :
  RichLogHandler.emit env h r log
  = match emit_line env h r with
    | Ok (r', line) => Ok (r', write log line)
    | Raise e => Raise e
    end.
Proof.
  unfold RichLogHandler.emit, emit_line.
  destruct (RichLogHandler.escape_args (args r)) as [args'|e]; [|reflexivity].
  cbn [bind].
  destruct (RichLogHandler.markup_escape (msg (set_args r args'))) as [m|e];
    [|reflexivity].
  cbn [bind].
  destruct (Handler_format (formatTime env) h _) as [[r1 text]|e]; [|reflexivity].
  cbn [bind].
  destruct (RichLogHandler.render_message h r1 text) as [t|e]; reflexivity.
Qed.

Lemma handle_by_line (env : Env) (h : Handler) (r : LogRecord) (log : RichLog) :
  match Handler_handle (run_filter env) (RichLogHandler.emit env) h r log with
  | Ok (_, log') => lines log' = (lines log ++ written env h r)%list
                    /\ List.length (written env h r) = 1%nat
                    /\ auto_scroll log' = auto_scroll log
  | Raise _ => written env h r = []
  end.
Proof.
  unfold Handler_handle, written.
  rewrite through_filters_accepts. rewrite emit_by_line.
  destruct (emit_line env h _) as [[r' line]|e]; cbn; auto.
Qed.

Lemma handles_any_log (env : Env) (h : Handler) (r : LogRecord) (log : RichLog) :
  returned (Handler_handle (run_filter env) (RichLogHandler.emit env) h r log)
  = handles env h r.
Proof.
  unfold handles, Handler_handle.
  destruct (Filterer_filter (run_filter env) (filters h) r) as [keep r'].
  destruct keep; [|reflexivity].
  rewrite !emit_by_line. destruct (emit_line env h r') as [[r1 line]|e]; reflexivity.
Qed.



Import LineFacts.


(** Whatever the toggles, the handler [on_mount] installs handles every
    record that has a string as its message, no arguments and no
    exception or stack text without an exception and writes one line for
    it, provided the time stamp, the logger's display name, the function
    name and the call-stack summary hold no bracket and no backslash. *)
Lemma mounted_handler_handles (env : Env) (a : App) (r : LogRecord) (m : string) :
  msg r = PyStr m -> truthy (args r) = false ->
  exc_info r = None -> exc_text r = None -> stack_info r = None ->
  plain (formatTime env (Some "%Y-%m-%d %H:%M:%S") (created r)) = true ->
  plain (display_name env (name r)) = true ->
  plain (funcName r) = true ->
  plain (callstack_summary env r) = true ->
  handles env (mounted_handler a) r = true
  /\ List.length (written env (mounted_handler a) r) = 1%nat.
Proof.
  intros Hmsg Hargs Hei Het Hsi Hts Hname Hfn Hcs.
  assert (Hh : handles env (mounted_handler a) r = true).
  { unfold handles, Handler_handle. rewrite through_filters_accepts, emit_by_line.
    change (filters (mounted_handler a)) with (filter_chain a).
    destruct (through_filter_chain env a r m Hmsg Hargs)
      as (Hmsg' & Hargs' & Hname' & Hfn' & Hcr' & Htid' & Hcs' & Hei' & Het' & Hsi').
    set (r1 := through_filters env (filter_chain a) r) in *.
    rewrite (emit_line_plain_record env (mounted_handler a)
               (mkFormatter (log_format a) (Some "%Y-%m-%d %H:%M:%S"))
               r1 (Rich.escape m) eq_refl eq_refl);
      [| unfold usesTime, log_format;
         destruct (_logger_show_time a), (_logger_show_tid a), (_logger_show_name a),
           (_logger_show_funcname a), (_logger_show_callstack a); vm_compute; reflexivity
       | exact Hmsg' | exact Hargs' | congruence | congruence | congruence].
    cbn zeta. cbn [datefmt].
    assert (Hx : exists tid, _logger_show_tid a = true -> posixTID r1 = Some tid).
    { destruct (_logger_show_tid a); [destruct (Htid' eq_refl) as [tid Ht]; eauto|].
      exists 0%Z. intros H. discriminate H. }
    destruct Hx as [tid Htid].
    rewrite (formatMessage_line_text a _
               (formatTime env (Some "%Y-%m-%d %H:%M:%S") (created r1))
               (display_name env (name r)) (funcName r)
               (Rich.escape (Rich.escape m)) tid (callstack_summary env r));
      [| reflexivity | reflexivity | exact Hname' | exact Hfn' | | ].
    - cbn [bind]. rewrite from_markup_line_text;
        [reflexivity | rewrite Hcr'; exact Hts | apply RenderFacts.plain_Z_to_string
         | exact Hname | exact Hfn | exact Hcs | apply EscapeFacts.live_tags_escape].
    - intros H. unfold set_asctime, set_message, set_msg. cbn [posixTID]. exact (Htid H).
    - intros H. unfold set_asctime, set_message, set_msg. cbn [callstack]. exact (Hcs' H). }
  split; [exact Hh|].
  pose proof (handle_by_line env (mounted_handler a) r LockingRichLog.init) as H.
  unfold handles in Hh.
  destruct (Handler_handle _ _ _ r _) as [[r' log']|e]; [apply H | discriminate Hh].
Qed.




(* ------------------------------------------------------------------ *)
(** ** What [emit] does to the record and to the text *)

Lemma escape_args_result (a a' : PyArgs) :
  RichLogHandler.escape_args a = Ok a' ->
  (truthy a = false /\ a' = a)
  \/ (truthy a = true
      /\ exists items, iter a = Ok items /\ a' = ArgsTuple (map escape_value items)).
Proof.
  unfold RichLogHandler.escape_args. intros H.
  destruct (truthy a); [right | left].
  - split; [reflexivity|].
    destruct (iter a) as [items|e]; [|discriminate H].
    cbn [bind] in H. rewrite escape_items_total in H. cbn [bind] in H.
    injection H as <-. exists items. split; reflexivity.
  - injection H as <-. split; reflexivity.
Qed.

Lemma getMessage_depends (r1 r2 : LogRecord) :
  msg r1 = msg r2 -> args r1 = args r2 -> getMessage r1 = getMessage r2.
Proof. unfold getMessage. intros -> ->. reflexivity. Qed.

(** C4, amended.  [emit] rewrites the record it handles: [msg] becomes its
    markup-escaped form, truthy [args] become the tuple of the items with
    every string escaped, and the formatter stores [message] on the record.
    The other fields (logger name, severity, creation time, function name,
    call stack and thread id) are left as they were. *)
Theorem emit_rewrites_msg_and_args
        (env : Env) (h : Handler) (r r' : LogRecord) (w w' : RichLog) :
  RichLogHandler.emit env h r w = Ok (r', w') ->
  (name r' = name r /\ levelno r' = levelno r /\ created r' = created r
   /\ funcName r' = funcName r /\ callstack r' = callstack r
   /\ posixTID r' = posixTID r)
  /\ (exists m, msg r = PyStr m /\ msg r' = PyStr (Rich.escape m))
  /\ ((truthy (args r) = false /\ args r' = args r)
      \/ (truthy (args r) = true
          /\ exists items,
               iter (args r) = Ok items
               /\ args r' = ArgsTuple (map escape_value items)))
  /\ (exists text, getMessage r' = Ok text /\ message r' = Some text).
Proof.
  intros Hemit. apply emit_inversion in Hemit.
  destruct Hemit as (args' & m & text & t & Hargs & Hm & Hf & _ & _).
  apply Handler_format_fields in Hf.
  destruct Hf as (Hname & Hlevel & Hmsg & Hargs' & Hcreated & Hfunc & Hcs & Htid & Hmessage).
  cbn in Hname, Hlevel, Hmsg, Hargs', Hcreated, Hfunc, Hcs, Htid.
  split; [repeat split; assumption|].
  split; [exists m; split; assumption|].
  split.
  - rewrite Hargs'. apply escape_args_result. exact Hargs.
  - destruct Hmessage as (text' & Hget & Hmessage). exists text'. split; [|exact Hmessage].
    rewrite <- Hget. apply getMessage_depends; assumption.
Qed.

(** C4 as stated fails: after [emit], the message and the arguments of the
    record are not what they were. *)
Lemma emit_rewrites_record_sample :
  exists r' log',
    RichLogHandler.emit sample_env (mounted_handler init_default)
      (sample_record (PyStr "[red]alert %s") (ArgsTuple [PyStr "[b]x"]))
      LockingRichLog.init = Ok (r', log')
    /\ msg r' = PyStr "\[red]alert %s"
    /\ args r' = ArgsTuple [PyStr "\[b]x"]
    /\ message r' = Some "\[red]alert \[b]x"
    /\ msg r' <> PyStr "[red]alert %s"
    /\ args r' <> ArgsTuple [PyStr "[b]x"].
Proof.
  eexists. eexists. split; [vm_compute; reflexivity|].
  cbn. repeat split; discriminate.
Qed.

Lemma emit_rewrites_msg_and_args_witness :
  exists m,
    msg (sample_record (PyStr "plain") (ArgsTuple [])) = PyStr m
    /\ msg (set_asctime (set_message (sample_record (PyStr "plain") (ArgsTuple [])) "plain")
                        "2024-05-17 09:30:00")
       = PyStr (Rich.escape m).
Proof.
  exact (proj1 (proj2 (emit_rewrites_msg_and_args sample_env (mounted_handler init_default)
           (sample_record (PyStr "plain") (ArgsTuple []))
           (set_asctime (set_message (sample_record (PyStr "plain") (ArgsTuple [])) "plain")
                        "2024-05-17 09:30:00")
           LockingRichLog.init
           (write LockingRichLog.init
              (LogRow (set_asctime (set_message (sample_record (PyStr "plain") (ArgsTuple []))
                                                "plain") "2024-05-17 09:30:00")
                 (Some "INFO    ")
                 (FromMarkup "│ 2024-05-17 09:30:00│ 2024-05-17 09:30:00 │ [grey53]trickkiste.base_app[/] │ [bold white]plain[/]")))
           eq_refl))).
Defined.





Lemma usesTime_log_format (a : App) (d : option string) :
  usesTime (mkFormatter (log_format a) d) = true.
Proof.
  unfold usesTime, log_format. cbn [fmt].
  destruct (_logger_show_time a), (_logger_show_tid a), (_logger_show_name a),
    (_logger_show_funcname a), (_logger_show_callstack a); vm_compute; reflexivity.
Qed.





(* ------------------------------------------------------------------ *)
(** ** Further properties of [emit] *)

Lemma escape_args_total (a : PyArgs) :
  exists a', RichLogHandler.escape_args a = Ok a'.
Proof.
  unfold RichLogHandler.escape_args.
  destruct a as [|items|entries]; cbn [truthy iter bind].
  - eexists; reflexivity.
  - destruct items; [eexists; reflexivity|].
    cbn [bind]. rewrite escape_items_total. eexists; reflexivity.
  - destruct entries; [eexists; reflexivity|].
    cbn [bind]. rewrite escape_items_total. eexists; reflexivity.
Qed.

(** X1. [emit] escapes [record.msg] without the [isinstance] test that it
    applies to the arguments.  On a record whose message is not a string
    (an exception object, a number, [None]) [emit] therefore raises the
    [TypeError] of [rich.markup.escape], whatever the handler, the
    arguments and the widget are; it writes no line and leaves the widget
    as it was. *)
Theorem emit_rejects_non_string_message
        (env : Env) (h : Handler) (r : LogRecord) (w : RichLog) :
  isinstance_str (msg r) = false ->
  (exists text, RichLogHandler.emit env h r w = Raise (TypeError text))
  /\ emitted env h r = []
  /\ pane_step env h w (Emitted r) = w.
Proof.
  intros Hmsg.
  assert (He : exists text, RichLogHandler.emit env h r w = Raise (TypeError text)).
  { unfold RichLogHandler.emit.
    destruct (escape_args_total (args r)) as [a' ->]. cbn [bind].
    change (msg (set_args r a')) with (msg r).
    destruct (msg r); [discriminate Hmsg | eexists; reflexivity..]. }
  destruct He as [text He].
  split; [exists text; exact He|]. split.
  - unfold emitted. rewrite emit_by_line in He.
    destruct (emit_line env h r) as [[r' line]|e]; [discriminate He | reflexivity].
  - cbn [pane_step]. rewrite He. reflexivity.
Qed.

Lemma emit_rejects_non_string_message_witness :
  emitted sample_env (mounted_handler init_default)
          (sample_record (PyObj "ValueError" "boom") (ArgsTuple [PyStr "x"]))
  = [].
Proof.
  exact (proj1 (proj2
           (emit_rejects_non_string_message sample_env (mounted_handler init_default)
              (sample_record (PyObj "ValueError" "boom") (ArgsTuple [PyStr "x"]))
              LockingRichLog.init eq_refl))).
Defined.

Lemma format_tuple_keyed (segs : list Segment) (items : list PyVal) :
  keys_of segs <> [] -> returned (format_tuple segs items) = false.
Proof.
  revert items. induction segs as [|seg segs IH]; intros items Hk.
  - contradiction.
  - destruct seg as [c|[k|] lj width conv]; cbn [format_tuple].
    + cbn [keys_of] in Hk. specialize (IH items Hk).
      destruct (format_tuple segs items); [discriminate IH | reflexivity].
    + reflexivity.
    + cbn [keys_of] in Hk. destruct items as [|v items]; [reflexivity|].
      destruct (convert conv v); [|reflexivity]. cbn [bind].
      specialize (IH items Hk).
      destruct (format_tuple segs items); [discriminate IH | reflexivity].
Qed.

(** X2. A mapping passed as the single argument of a log call does not
    survive [emit]: iterating over [record.args] yields the keys of the
    mapping, so [args] becomes the tuple of the (escaped) keys.  When the
    message refers to the mapping by key (it holds a conversion with a
    key in parentheses), formatting the message with that tuple raises:
    [emit] returns nothing and the widget is left as it was. *)
Theorem emit_mapping_argument_raises
        (env : Env) (h : Handler) (r : LogRecord) (w : RichLog)
        (m : string) (entries : list (string * PyVal)) :
  msg r = PyStr m -> args r = ArgsDict entries -> entries <> [] ->
  format_fields (Rich.escape m) <> [] ->
  returned (RichLogHandler.emit env h r w) = false
  /\ pane_step env h w (Emitted r) = w
  /\ RichLogHandler.escape_args (args r)
     = Ok (ArgsTuple (map (fun kv => PyStr (Rich.escape (fst kv))) entries)).
Proof.
  intros Hmsg Hargs Hne Hfields.
  assert (Hesc : RichLogHandler.escape_args (args r)
                 = Ok (ArgsTuple (map (fun kv => PyStr (Rich.escape (fst kv))) entries))).
  { rewrite Hargs. unfold RichLogHandler.escape_args.
    destruct entries as [|kv entries]; [contradiction|].
    cbn [truthy iter bind]. rewrite escape_items_total. cbn [bind].
    rewrite map_map. reflexivity. }
  assert (He : returned (RichLogHandler.emit env h r w) = false).
  { unfold RichLogHandler.emit. rewrite Hesc. cbn [bind].
    change (msg (set_args r ?a)) with (msg r). rewrite Hmsg.
    cbn [RichLogHandler.markup_escape bind].
    assert (Hget : returned (getMessage
                     (set_msg (set_args r (ArgsTuple
                        (map (fun kv => PyStr (Rich.escape (fst kv))) entries)))
                        (PyStr (Rich.escape m)))) = false).
    { unfold getMessage. cbn [msg args set_msg set_args str].
      destruct entries as [|kv entries]; [contradiction|].
      cbn [map truthy]. unfold mod_args.
      unfold format_fields in Hfields.
      destruct (parse (Rich.escape m)) as [segs|e]; [|reflexivity].
      cbn [bind]. apply format_tuple_keyed. exact Hfields. }
    unfold Handler_format, Formatter_format.
    destruct (formatter h);
      destruct (getMessage _); try discriminate Hget; reflexivity. }
  split; [exact He|]. split; [|exact Hesc].
  cbn [pane_step]. destruct (RichLogHandler.emit env h r w) as [[r' w']|e];
    [discriminate He | reflexivity].
Qed.

Lemma emit_mapping_argument_raises_witness :
  returned (RichLogHandler.emit sample_env (mounted_handler init_default)
              (sample_record (PyStr "user %(name)s logged in")
                             (ArgsDict [("name", PyStr "ada")]))
              LockingRichLog.init) = false.
Proof.
  refine (proj1 (emit_mapping_argument_raises sample_env (mounted_handler init_default)
                   (sample_record (PyStr "user %(name)s logged in")
                                  (ArgsDict [("name", PyStr "ada")]))
                   LockingRichLog.init
                   "user %(name)s logged in" [("name", PyStr "ada")]
                   eq_refl eq_refl _ _)).
  - discriminate.
  - vm_compute. discriminate.
Defined.

(* ------------------------------------------------------------------ *)
(** ** Further properties of [on_mount] and [set_log_levels] *)

(** X3. Whatever the toggles are, the format string that [on_mount]
    assembles is a well-formed [%]-format in which every conversion names
    a record attribute and converts with [s]; the attributes it names
    are, in this order: the time stamp, then for each toggle that is on
    the time stamp once more, the thread id, the logger name, the function
    name and the call stack, and last the message. *)
Theorem log_format_well_formed (a : App) :
  (exists segs, parse (log_format a) = Ok segs /\ keyed_strings segs = true)
  /\ format_fields (log_format a)
     = (["asctime"]
        ++ (if _logger_show_time a then ["asctime"] else [])
        ++ (if _logger_show_tid a then ["posixTID"] else [])
        ++ (if _logger_show_name a then ["name"] else [])
        ++ (if _logger_show_funcname a then ["funcName"] else [])
        ++ (if _logger_show_callstack a then ["callstack"] else [])
        ++ ["message"])%list.
Proof.
  split; [exact (log_format_parses a) | exact (log_format_fields a)].
Qed.

(** X4. The parameter [logger_show_level] is stored by [__init__] and
    read nowhere: two applications that differ in it only get the same
    handler from [on_mount] (level, filters, format string and date
    format), and no field of the format string refers to the severity of
    a record. *)
Theorem logger_show_level_unused
        (hooks : Hooks) (reg : Registry)
        (show_level show_time show_name show_callstack show_funcname show_tid : bool) :
  keeps_handlers hooks ->
  let mounted b :=
    on_mount hooks (mkWorld (init b show_time show_name show_callstack
                                  show_funcname show_tid) reg) in
  root_handlers (logging (mounted show_level))
  = root_handlers (logging (mounted (negb show_level)))
  /\ forall h, In h (root_handlers (logging (mounted show_level))) ->
       existsb (String.eqb "levelname") (format_fields (fmt (formatter_of h))) = false
       /\ existsb (String.eqb "levelno") (format_fields (fmt (formatter_of h))) = false.
Proof.
  intros Hkeep mounted. subst mounted. cbv beta.
  rewrite !(on_mount_root_handlers hooks _ Hkeep). cbn [app].
  split; [reflexivity|].
  intros h [<-|[]]. unfold formatter_of. cbn [formatter mounted_handler fmt].
  rewrite log_format_fields. cbn [init _logger_show_time _logger_show_tid
    _logger_show_name _logger_show_funcname _logger_show_callstack].
  destruct show_time, show_tid, show_name, show_funcname, show_callstack;
    split; reflexivity.
Qed.

Lemma logger_show_level_unused_witness :
  root_handlers (logging (on_mount status_hooks (mkWorld (init true true true false false false)
                                                         sample_registry)))
  = root_handlers (logging (on_mount status_hooks (mkWorld (init false true true false false false)
                                                           sample_registry))).
Proof.
  exact (proj1 (logger_show_level_unused status_hooks sample_registry
                  true true true false false false keeps_handlers_status_hooks)).
Defined.

(** X5. [on_mount] keeps filters and format string in step: the handler
    it installs holds the call-stack filter exactly when its format string
    has the field [callstack], and the thread-id filter exactly when the
    format string has the field [posixTID]; the markup-escaping filter and
    the logger-name filter are installed in every case. *)
Theorem on_mount_filters_match_fields (hooks : Hooks) (w : World) :
  keeps_handlers hooks ->
  forall h, In h (root_handlers (logging (on_mount hooks w))) ->
  existsb (Filter_eqb callstack_filter) (filters h)
  = existsb (String.eqb "callstack") (format_fields (fmt (formatter_of h)))
  /\ existsb (Filter_eqb thread_id_filter) (filters h)
     = existsb (String.eqb "posixTID") (format_fields (fmt (formatter_of h)))
  /\ existsb (Filter_eqb logger_name_filter) (filters h) = true
  /\ existsb (Filter_eqb markup_escape_filter) (filters h) = true.
Proof.
  intros Hkeep h Hin. rewrite (on_mount_root_handlers hooks w Hkeep) in Hin.
  destruct Hin as [<-|[]].
  unfold formatter_of. cbn [formatter mounted_handler fmt filters].
  rewrite log_format_fields. unfold filter_chain.
  destruct (_logger_show_time (app w)), (_logger_show_tid (app w)),
    (_logger_show_name (app w)), (_logger_show_funcname (app w)),
    (_logger_show_callstack (app w)); repeat split; reflexivity.
Qed.

Lemma on_mount_filters_match_fields_witness :
  existsb (Filter_eqb callstack_filter)
          (filters (mounted_handler (init true true true true false false)))
  = existsb (String.eqb "callstack")
            (format_fields (fmt (formatter_of
               (mounted_handler (init true true true true false false))))).
Proof.
  exact (proj1 (on_mount_filters_match_fields status_hooks
                  (mkWorld (init true true true true false false) sample_registry)
                  keeps_handlers_status_hooks
                  (mounted_handler (init true true true true false false))
                  (or_introl eq_refl))).
Defined.

(** X6. [set_log_levels] stores the level specifications on the
    application but not [others_level].  When [on_mount] runs after a call
    of [set_log_levels] with the specifications [levels] and with
    [others_level=others], it applies the stored specifications again and
    with the default for the other loggers: the
    levels in force are still [levels], and [others_level] is back at
    [logging.WARNING] whatever [others] was.  (No [initialize] hook; the
    log widget and the footer are as before.) *)
Theorem on_mount_resets_others_level
        (cleanup : option (World -> World)) (w : World)
        (levels : list LogLevelSpec) (others : Level) :
  let w' := on_mount (mkHooks None cleanup) (set_log_levels levels others w) in
  LoggingHelper.levels (logging w') = levels
  /\ others_level (logging w') = LevelNo WARNING
  /\ _log_level (app w') = levels
  /\ others_level (logging (set_log_levels levels others w)) = others
  /\ _richlog (app w') = _richlog (app w)
  /\ _footer_label (app w') = _footer_label (app w).
Proof.
  intros w'. subst w'. rewrite on_mount_before_hook. cbn [initialize].
  destruct w as [a reg]. repeat split; reflexivity.
Qed.

(* ------------------------------------------------------------------ *)
(** ** [update_status_bar] *)



(* ------------------------------------------------------------------ *)
(** ** The log pane under records and scroll events *)

Lemma pane_step_emitted (env : Env) (h : Handler) (w : RichLog) (r : LogRecord) :
  lines (pane_step env h w (Emitted r)) = (lines w ++ emitted env h r)%list
  /\ auto_scroll (pane_step env h w (Emitted r)) = auto_scroll w.
Proof.
  cbn [pane_step]. unfold emitted. rewrite emit_by_line.
  destruct (emit_line env h r) as [[r' line]|e]; cbn [lines write auto_scroll].
  - split; reflexivity.
  - rewrite app_nil_r. split; reflexivity.
Qed.

(** X8. Records and scroll events do not interfere in the log widget.
    After any interleaving of records handed to [emit] and scroll events
    delivered to [on_scroll_to], the lines of the widget are those it had,
    followed by the lines of the records on which [emit] did not raise, in
    order (scroll events add and remove none); and [auto_scroll] tells
    whether the view was at the end when the last scroll event was
    delivered, or is as it was if there was none ([emit] never changes
    it). *)
Theorem pane_run_lines_and_flag
        (env : Env) (h : Handler) (w : RichLog) (es : list PaneEvent) :
  lines (pane_run env h w es) = (lines w ++ emitted_lines env h es)%list
  /\ auto_scroll (pane_run env h w es)
     = match last_scroll es with
       | Some ev => (view_y ev =? end_y ev)%Z
       | None => auto_scroll w
       end.
Proof.
  revert w. induction es as [|e es IH]; intros w.
  - cbn. rewrite app_nil_r. split; reflexivity.
  - cbn [pane_run fold_left]. fold (pane_run env h (pane_step env h w e) es).
    destruct (IH (pane_step env h w e)) as [IHl IHf]. rewrite IHl, IHf.
    destruct e as [r|ev].
    + destruct (pane_step_emitted env h w r) as [-> ->].
      cbn [emitted_lines last_scroll]. rewrite <- app_assoc. split; reflexivity.
    + cbn [emitted_lines last_scroll pane_step].
      destruct (deliver_scroll_flag w ev) as (-> & -> & _).
      split; [reflexivity|].
      destruct (last_scroll es); reflexivity.
Qed.

(* ------------------------------------------------------------------ *)
(** ** A record without the attributes the filters attach *)

(** X9. The fields [callstack] and [posixTID] of the format string are
    record attributes that only the filters attach.  On a record that
    lacks the attribute of a field whose toggle is on (a record handed to
    the handler's [emit] without going through its filters), [emit]
    raises the [ValueError] of [Formatter.formatMessage] and the widget is
    left as it was.  (String message, no arguments.) *)
Theorem emit_needs_filter_attributes
        (env : Env) (a : App) (r : LogRecord) (w : RichLog) (m : string) :
  msg r = PyStr m -> truthy (args r) = false ->
  (_logger_show_callstack a = true /\ callstack r = None)
  \/ (_logger_show_tid a = true /\ posixTID r = None) ->
  (exists text, RichLogHandler.emit env (mounted_handler a) r w = Raise (ValueError text))
  /\ pane_step env (mounted_handler a) w (Emitted r) = w.
Proof.
  intros Hmsg Hargs Hmiss.
  assert (He : exists text,
             RichLogHandler.emit env (mounted_handler a) r w = Raise (ValueError text)).
  { rewrite emit_by_line.
    rewrite (LineFacts.emit_line_no_args env (mounted_handler a)
               (mkFormatter (log_format a) (Some "%Y-%m-%d %H:%M:%S")) r m
               eq_refl eq_refl (usesTime_log_format a _) Hmsg Hargs).
    cbv zeta. unfold formatMessage. cbn [fmt].
    destruct (log_format_parses a) as (segs & Hp & Hks).
    pose proof (log_format_fields a) as Hf. unfold format_fields in Hf.
    rewrite Hp in Hf. rewrite Hp. cbn [bind].
    match goal with
    | |- context [format_mapping segs ?l] =>
        assert (Hk : exists k, In k (keys_of segs) /\ l k = None)
    end.
    { rewrite Hf. destruct Hmiss as [[Ht Hn]|[Ht Hn]]; rewrite Ht.
      - exists "callstack". split.
        + destruct (_logger_show_time a), (_logger_show_tid a), (_logger_show_name a),
            (_logger_show_funcname a); cbn; tauto.
        + unfold attribute. cbn [String.eqb Ascii.eqb Bool.eqb].
          unfold set_asctime, set_message, set_msg. cbn [callstack]. rewrite Hn. reflexivity.
      - exists "posixTID". split.
        + destruct (_logger_show_time a); cbn; tauto.
        + unfold attribute. cbn [String.eqb Ascii.eqb Bool.eqb].
          unfold set_asctime, set_message, set_msg. cbn [posixTID]. rewrite Hn. reflexivity. }
    destruct Hk as (k & Hin & Hnone).
    destruct (format_mapping_missing segs _ k Hks Hin Hnone) as [k' ->].
    cbn [bind]. eexists. reflexivity. }
  split; [exact He|].
  destruct He as [text He]. cbn [pane_step]. rewrite He. reflexivity.
Qed.

Lemma emit_needs_filter_attributes_witness :
  exists text,
    RichLogHandler.emit sample_env (mounted_handler (init true true true true false false))
      (sample_record (PyStr "started") ArgsNone) LockingRichLog.init
    = Raise (ValueError text).
Proof.
  exact (proj1 (emit_needs_filter_attributes sample_env
                  (init true true true true false false)
                  (sample_record (PyStr "started") ArgsNone) LockingRichLog.init
                  "started" eq_refl eq_refl (or_introl (conj eq_refl eq_refl)))).
Defined.

(* ------------------------------------------------------------------ *)
(** ** A record that [emit] handles twice *)

Module TwiceFacts.
Import Rich EscapeFacts.

Lemma length_esc_bounded (n : nat) (s : string) :
  (String.length s <= n)%nat ->
  String.length (esc 0 s) = (String.length s + added_backslashes (scan 0 s))%nat.
Proof.
  revert s. induction n as [|n IH]; intros s Hlen.
  - destruct s; [reflexivity | cbn in Hlen; lia].
  - destruct s as [|c r]; [reflexivity|].
    destruct (match_at (String c r)) as [[k tag]|] eqn:Hm.
    + destruct (match_at_Some _ k tag Hm) as (rest & Hs & Hconv).
      rewrite Hs, (esc_match k tag rest Hconv), (scan_match k tag rest Hconv).
      cbn [added_backslashes].
      rewrite Hs in Hlen. rewrite !length_append in *. unfold bracket in *.
      cbn [String.length] in *. rewrite !length_append in *.
      cbn [String.length] in *.
      rewrite !RenderFacts.length_repeat_backslash in *.
      rewrite IH by lia. lia.
    + rewrite (esc_no_match c r Hm). cbn [scan]. rewrite Hm.
      cbn [added_backslashes String.length]. rewrite IH by (cbn in Hlen; lia).
      reflexivity.
Qed.

Lemma has_tag_added (ts : list Token) :
  existsb (fun t => match t with Tag _ _ => true | Chr _ => false end) ts = true ->
  (0 < added_backslashes ts)%nat.
Proof.
  induction ts as [|[c|k tag] ts IH]; cbn [existsb added_backslashes orb]; intros H.
  - discriminate H.
  - apply IH. exact H.
  - lia.
Qed.

Lemma has_tag_odd_tokens (ts : list Token) :
  existsb (fun t => match t with Tag _ _ => true | Chr _ => false end) (odd_tokens ts)
  = existsb (fun t => match t with Tag _ _ => true | Chr _ => false end) ts.
Proof.
  induction ts as [|[c|k tag] ts IH]; cbn [odd_tokens existsb orb];
    [reflexivity | exact IH | reflexivity].
Qed.

Lemma has_tag_scan_trailing (e : string) (k : nat) :
  existsb (fun t => match t with Tag _ _ => true | Chr _ => false end) (scan k e) = true ->
  existsb (fun t => match t with Tag _ _ => true | Chr _ => false end)
          (scan k (e ++ "\")) = true.
Proof.
  revert k. induction e as [|c r IH]; intros k H.
  - destruct k; discriminate H.
  - cbn [append scan] in *. destruct k as [|k]; [|apply IH; exact H].
    change (String c (r ++ "\")) with (String c r ++ "\").
    rewrite match_at_trailing.
    destruct (match_at (String c r)) as [[n tag]|]; cbn [existsb orb] in *;
      [reflexivity | apply IH; exact H].
Qed.

Lemma has_tag_esc (s : string) : has_tag s = true -> has_tag (esc 0 s) = true.
Proof.
  unfold has_tag. rewrite (scan_esc_bounded (String.length s) s (le_n _)).
  rewrite has_tag_odd_tokens. trivial.
Qed.

Lemma has_tag_escape (s : string) : has_tag s = true -> has_tag (escape s) = true.
Proof.
  intros H. apply has_tag_esc in H. unfold escape. fold (esc 0 s).
  destruct (endswith (esc 0 s) "\" && negb (endswith (esc 0 s) "\\")); [|exact H].
  unfold has_tag in *. apply has_tag_scan_trailing. exact H.
Qed.

Lemma length_escape_ge (s : string) :
  (String.length s + added_backslashes (scan 0 s) <= String.length (escape s))%nat.
Proof.
  unfold escape. fold (esc 0 s).
  pose proof (length_esc_bounded (String.length s) s (le_n _)) as H.
  destruct (endswith (esc 0 s) "\" && negb (endswith (esc 0 s) "\\"));
    [rewrite length_append|]; lia.
Qed.

Lemma escape_grows (s : string) :
  has_tag s = true -> (String.length s < String.length (escape s))%nat.
Proof.
  intros H. pose proof (length_escape_ge s) as Hge.
  pose proof (has_tag_added _ H) as Hpos. lia.
Qed.

End TwiceFacts.

(** X10. [emit] rewrites the record in place, so a record that is
    emitted twice (the same record object goes to every handler that
    holds it) is escaped twice: after the second [emit] the message is the
    escaped form of the escaped message, and so is every string argument.
    When the message holds a tag, each escape makes it longer, so the
    second line shows more backslashes than the first.  Every [emit] that
    returns adds one line. *)
Theorem emit_twice_escapes_twice
        (env : Env) (h : Handler) (r r1 r2 : LogRecord) (w w1 w2 : RichLog)
        (m : string) (items : list PyVal) :
  msg r = PyStr m -> args r = ArgsTuple items ->
  RichLogHandler.emit env h r w = Ok (r1, w1) ->
  RichLogHandler.emit env h r1 w1 = Ok (r2, w2) ->
  msg r2 = PyStr (Rich.escape (Rich.escape m))
  /\ args r2 = ArgsTuple (map escape_value (map escape_value items))
  /\ (has_tag m = true ->
      (String.length m < String.length (Rich.escape m)
       /\ String.length (Rich.escape m) < String.length (Rich.escape (Rich.escape m)))%nat)
  /\ List.length (lines w2) = (List.length (lines w) + 2)%nat.
Proof.
  intros Hmsg Hargs H1 H2.
  assert (step : forall r r' w w' m items,
             msg r = PyStr m -> args r = ArgsTuple items ->
             RichLogHandler.emit env h r w = Ok (r', w') ->
             msg r' = PyStr (Rich.escape m)
             /\ args r' = ArgsTuple (map escape_value items)
             /\ List.length (lines w') = S (List.length (lines w))).
  { clear. intros r r' w w' m items Hmsg Hargs H.
    destruct (emit_inversion env h r r' w w' H) as (a' & m' & text & t & Ha & Hm & Hf & _ & Hw).
    rewrite Hmsg in Hm. injection Hm as <-.
    apply Handler_format_fields in Hf.
    destruct Hf as (_ & _ & Hfm & Hfa & _).
    split; [exact Hfm|]. split.
    - rewrite Hfa. unfold set_msg, set_args. cbn [args].
      rewrite Hargs in Ha. unfold RichLogHandler.escape_args in Ha.
      destruct items as [|v items]; cbn [truthy iter bind] in Ha.
      + injection Ha as <-. reflexivity.
      + rewrite escape_items_total in Ha. cbn [bind] in Ha. injection Ha as <-.
        reflexivity.
    - rewrite Hw. cbn [lines write]. rewrite length_app. cbn. lia. }
  destruct (step r r1 w w1 m items Hmsg Hargs H1) as (Hm1 & Ha1 & Hl1).
  destruct (step r1 r2 w1 w2 _ _ Hm1 Ha1 H2) as (Hm2 & Ha2 & Hl2).
  split; [exact Hm2|]. split; [exact Ha2|]. split; [|lia].
  intros Ht. split.
  - apply TwiceFacts.escape_grows. exact Ht.
  - apply TwiceFacts.escape_grows. apply TwiceFacts.has_tag_escape. exact Ht.
Qed.

Lemma emit_twice_escapes_twice_witness :
  (String.length "[red]alert" < String.length (Rich.escape "[red]alert")
   /\ String.length (Rich.escape "[red]alert")
      < String.length (Rich.escape (Rich.escape "[red]alert")))%nat.
Proof.
  destruct (RichLogHandler.emit sample_env (mounted_handler init_default)
              (sample_record (PyStr "[red]alert") (ArgsTuple []))
              LockingRichLog.init) as [[r1 w1]|e] eqn:E1;
    [|vm_compute in E1; discriminate E1].
  destruct (RichLogHandler.emit sample_env (mounted_handler init_default) r1 w1)
    as [[r2 w2]|e] eqn:E2.
  - exact (proj1 (proj2 (proj2
      (emit_twice_escapes_twice sample_env (mounted_handler init_default)
         (sample_record (PyStr "[red]alert") (ArgsTuple [])) r1 r2
         LockingRichLog.init w1 w2 "[red]alert" [] eq_refl eq_refl E1 E2))) eq_refl).
  - vm_compute in E1. injection E1 as <- <-. vm_compute in E2. discriminate E2.
Defined.
